(** * content_moderation: a shallow embedding of [src/content_moderation.py]

    The program stages a video, provisions a notification channel
    (topic, queue, role with an attached policy), starts a remote
    moderation job, polls the queue for the completion message, fetches
    the result, deletes what it provisioned, and finally tallies the
    moderation labels into 35 counters from which it derives the
    ['allowed'] / ['rejected'] label.

    Python integers are modelled as [Z], Python strings as [string], the
    dictionaries whose key order matters as association lists, and the
    remote services as a record of resources together with the trace of
    operations invoked on them. *)

From Stdlib Require Import ZArith List String Bool Lia Permutation.
From Stdlib Require QArith_base.
Import ListNotations.

Local Open Scope string_scope.
Local Open Scope list_scope.
Local Open Scope Z_scope.

(** Python's [==] on strings. *)
Notation "a == b" := (String.eqb a b) (at level 70, no associativity).

(* ===================================================================== *)
(** * Part I: definitions *)
(* ===================================================================== *)

(** ** Data received from the remote service *)

(** One element of [response['ModerationLabels']]:
    [{'Timestamp': .., 'ModerationLabel': {'Confidence': .., 'Name': ..,
    'ParentName': ..}}].  The program only ever reads [Name]. *)
Record moderation_label := {
  Confidence : QArith_base.Q;
  Name : string;
  ParentName : string
}.

Record detection := {
  Timestamp : Z;
  ModerationLabel : moderation_label
}.

(** The response of [get_content_moderation]. *)
Record response := {
  JobStatus : string;
  ModerationLabels : list detection
}.

(** The decoded completion message: [message['JobId']], [message['Status']]. *)
Record notification := {
  JobId : string;
  Status : string
}.

(** ** The 35 counters (lines 310-363) *)

(** The local integer variables of [content_moderation], one per category. *)
Inductive counter : Set :=
  (* Parent category: Nudity *)
  | nudity | graphic_male_nudity | graphic_female_nudity | sexual_activity
  | illustrated_explicit_nudity | adult_toys
  (* Parent category: Suggestive *)
  | female_swimwear_or_underwear | male_swimwear_or_underwear | partial_nudity
  | barechested_male | revealing_clothes | sexual_situations
  (* Parent category: Violence *)
  | graphic_violence_or_gore | physical_violence | weapon_violence | weapons
  | self_injury
  (* Parent category: Visually disturbing *)
  | emaciated_bodies | corpses | hanging | air_crash | explosions_or_blasts
  (* Parent category: Rude Gestures *)
  | middle_finger
  (* Parent category: Drugs *)
  | drug_products | drug_use | pills | drug_paraphernalia
  (* Parent category: Tobacco *)
  | tobacco_products | smoking
  (* Parent category: Alcohol *)
  | drinking | alcoholic_beverages
  (* Parent category: Gambling *)
  | gambling
  (* Parent category: Hate Symbols *)
  | nazi_party | white_supremacy | extremist.

Scheme Equality for counter.

(** The values of the 35 variables at one program point. *)
Definition counters := counter -> Z.

(** Lines 311-363: every variable starts at 0. *)
Definition zeroed : counters := fun _ => 0.

(** [x += 1] *)
Definition incr (x : counter) (s : counters) : counters :=
  fun y => if counter_beq y x then s y + 1 else s y.

(** ** The classification loop (lines 365-485) *)

(** The body of the [for] loop: the [if]/[elif] chain on the label name.
    A label that matches no branch changes nothing. *)
Definition tally_step (s : counters) (labels : detection) : counters :=
  let label := Name (ModerationLabel labels) in
  (* Nudity *)
  if label == "Nudity" then incr nudity s
  else if label == "Graphic Male Nudity" then incr graphic_male_nudity s
  else if label == "Graphic Female Nudity" then incr graphic_female_nudity s
  else if label == "Sexual Activity" then incr sexual_activity s
  else if label == "Illustrated Explicity Nudity" then incr illustrated_explicit_nudity s
  else if label == "Adult Toys" then incr adult_toys s
  (* Suggestive *)
  else if label == "Female Swimwear Or Underwear" then incr female_swimwear_or_underwear s
  else if label == "Male Swimwear Or Underwear" then incr male_swimwear_or_underwear s
  else if label == "Partial Nudity" then incr partial_nudity s
  else if label == "Barechested Male" then incr barechested_male s
  else if label == "Revealing Clothes" then incr revealing_clothes s
  else if label == "Sexual Situations" then incr sexual_situations s
  (* Violence *)
  else if label == "Graphic Violence Or Gore" then incr graphic_violence_or_gore s
  else if label == "Physical Violence" then incr physical_violence s
  else if label == "Weapon Violence" then incr weapon_violence s
  else if label == "Weapons" then incr weapons s
  else if label == "Self Injury" then incr self_injury s
  (* Visually disturbing *)
  else if label == "Emaciated Bodies" then incr emaciated_bodies s
  else if label == "Corpses" then incr corpses s
  else if label == "Hanging" then incr hanging s
  else if label == "Air Crash" then incr air_crash s
  else if label == "Explosion Or Blasts" then incr explosions_or_blasts s
  (* Rude Gestures *)
  else if label == "Middle Finger" then incr middle_finger s
  (* Drugs *)
  else if label == "Drug Products" then incr drug_products s
  else if label == "Drug Use" then incr drug_use s
  else if label == "Pills" then incr pills s
  else if label == "Drug Paraphernalia" then incr drug_paraphernalia s
  else if label == "Tobacco Products" then incr tobacco_products s
  else if label == "Smoking" then incr smoking s
  (* Alcohol *)
  else if label == "Drinking" then incr drinking s
  (* Gambling *)
  else if label == "Gambling" then incr gambling s
  (* Hate Symbols *)
  else if label == "Nazi Party" then incr nazi_party s
  else if label == "White Supremacy" then incr white_supremacy s
  else if label == "Extremist" then incr extremist s
  else s.

(** The whole loop, run from the zeroed counters. *)
Definition tally_labels (ds : list detection) : counters :=
  fold_left tally_step ds zeroed.

(** Lines 488-501: the dictionary [new_row], in the order it is written. *)
Definition new_row (s : counters) : list (string * Z) :=
  [ ("nudity", s nudity); ("graphic_male_nudity", s graphic_male_nudity);
    ("graphic_female_nudity", s graphic_female_nudity);
    ("sexual_activity", s sexual_activity);
    ("illustrated_explicit_nudity", s illustrated_explicit_nudity);
    ("adult_toys", s adult_toys);
    ("female_swimwear_or_underwear", s female_swimwear_or_underwear);
    ("male_swimwear_or_underwear", s male_swimwear_or_underwear);
    ("partial_nudity", s partial_nudity); ("barechested_male", s barechested_male);
    ("revealing_clothes", s revealing_clothes);
    ("sexual_situations", s sexual_situations);
    ("graphic_violence_or_gore", s graphic_violence_or_gore);
    ("physical_violence", s physical_violence);
    ("weapon_violence", s weapon_violence); ("weapons", s weapons);
    ("self_injury", s self_injury);
    ("emaciated_bodies", s emaciated_bodies); ("corpses", s corpses);
    ("hanging", s hanging); ("air_crash", s air_crash);
    ("explosions_or_blasts", s explosions_or_blasts);
    ("middle_finger", s middle_finger); ("drug_products", s drug_products);
    ("drug_use", s drug_use); ("pills", s pills);
    ("drug_paraphernalia", s drug_paraphernalia);
    ("tobacco_products", s tobacco_products);
    ("smoking", s smoking); ("drinking", s drinking);
    ("alcoholic_beverages", s alcoholic_beverages); ("gambling", s gambling);
    ("nazi_party", s nazi_party); ("white_supremacy", s white_supremacy);
    ("extremist", s extremist) ].

(** The tally the program computes from the detections: the row appended
    to the data frame. *)
Definition classify (ds : list detection) : list (string * Z) :=
  new_row (tally_labels ds).

(** Reading a dictionary held as an association list. *)
Fixpoint dict_get {V : Type} (k : string) (d : list (string * V)) : option V :=
  match d with
  | [] => None
  | (k', v) :: d' => if k == k' then Some v else dict_get k d'
  end.

(** ** The verdict (lines 507-516) *)

(** [df.iloc[0,:].sum()] *)
Definition labels_count (row : list (string * Z)) : Z :=
  fold_right Z.add 0 (map snd row).

(** [if labels_count < 1: 'allowed' else: 'rejected'] *)
Definition verdict (row : list (string * Z)) : string :=
  if labels_count row <? 1 then "allowed" else "rejected".

(** The values a returned dictionary holds: counts and the label string. *)
Inductive pyval :=
  | PyInt (n : Z)
  | PyStr (s : string).

(** [df['label'] = ..; pred_values = df.iloc[0,:].to_dict()]: the row's
    columns followed by the new column [label]. *)
Definition pred_values (row : list (string * Z)) : list (string * pyval) :=
  map (fun kv => (fst kv, PyInt (snd kv))) row ++ [("label", PyStr (verdict row))].

(** ** The remote services *)

(** The exceptions the program can end with. *)
Inductive exn :=
  | ClientError (operation : string)   (* botocore.exceptions.ClientError *)
  | RuntimeError                       (* line 174: [raise RuntimeError] *)
  | AttributeError                     (* attribute access on [None] *)
  | TypeError.                         (* a list indexed by a string *)

(** A run returns, ends with an exception, or never leaves the polling loop. *)
Inductive outcome (A : Type) :=
  | Returns (a : A)
  | Raises (e : exn)
  | Diverges.

Arguments Returns {A} a.
Arguments Raises {A} e.
Arguments Diverges {A}.

(** The remote operations the program invokes, in Boto3 terms. *)
Inductive call :=
  | CreateBucket
  | UploadFile (path : string)
  | CreateTopic (name : string)
  | CreateQueue (name : string)
  | SetQueueAttributes
  | Subscribe
  | CreateRole (name : string)
  | CreatePolicy (name : string)
  | AttachRolePolicy (arn : string)
  | StartContentModeration (min_confidence : QArith_base.Q)
  | ReceiveMessages (wait_time_seconds : Z)
  | DeleteMessage (m : notification)
  | GetContentModeration (job_id : string)
  | ListAttachedRolePolicies
  | DetachRolePolicy (arn : string)
  | DeletePolicy (arn : string)
  | DeleteRole
  | DeleteQueue
  | DeleteTopic
  | DeleteObjects
  | DeleteBucket.

(** What one [receive_messages] call yields. *)
Inductive receipt :=
  | NoMessage                        (* the wait elapsed: [messages] is empty *)
  | Message (m : notification)       (* [messages[0]], decoded *)
  | ReceiveError (e : exn).          (* the call itself raised *)

(** The resources held by the remote services, what the queue is going
    to deliver, and the operations invoked so far (oldest first). *)
Record aws := {
  topic_live : bool;
  queue_live : bool;
  role_live : bool;
  policies : list string;       (* managed policies that exist *)
  attached : list string;       (* policies attached to the role *)
  bucket_live : bool;
  objects : list string;        (* keys stored in the bucket *)
  pending : list receipt;       (* outcomes of the coming receives; once
                                   used up the queue stays silent *)
  deleted : list notification;  (* messages deleted from the queue *)
  calls : list call
}.

Definition with_topic_live (b : bool) (a : aws) : aws :=
  {| topic_live := b; queue_live := queue_live a; role_live := role_live a;
     policies := policies a; attached := attached a;
     bucket_live := bucket_live a; objects := objects a;
     pending := pending a; deleted := deleted a; calls := calls a |}.

Definition with_queue_live (b : bool) (a : aws) : aws :=
  {| topic_live := topic_live a; queue_live := b; role_live := role_live a;
     policies := policies a; attached := attached a;
     bucket_live := bucket_live a; objects := objects a;
     pending := pending a; deleted := deleted a; calls := calls a |}.

Definition with_role_live (b : bool) (a : aws) : aws :=
  {| topic_live := topic_live a; queue_live := queue_live a; role_live := b;
     policies := policies a; attached := attached a;
     bucket_live := bucket_live a; objects := objects a;
     pending := pending a; deleted := deleted a; calls := calls a |}.

Definition with_policies (ps : list string) (a : aws) : aws :=
  {| topic_live := topic_live a; queue_live := queue_live a;
     role_live := role_live a; policies := ps; attached := attached a;
     bucket_live := bucket_live a; objects := objects a;
     pending := pending a; deleted := deleted a; calls := calls a |}.

Definition with_attached (ps : list string) (a : aws) : aws :=
  {| topic_live := topic_live a; queue_live := queue_live a;
     role_live := role_live a; policies := policies a; attached := ps;
     bucket_live := bucket_live a; objects := objects a;
     pending := pending a; deleted := deleted a; calls := calls a |}.

Definition with_bucket_live (b : bool) (a : aws) : aws :=
  {| topic_live := topic_live a; queue_live := queue_live a;
     role_live := role_live a; policies := policies a; attached := attached a;
     bucket_live := b; objects := objects a;
     pending := pending a; deleted := deleted a; calls := calls a |}.

Definition with_objects (os : list string) (a : aws) : aws :=
  {| topic_live := topic_live a; queue_live := queue_live a;
     role_live := role_live a; policies := policies a; attached := attached a;
     bucket_live := bucket_live a; objects := os;
     pending := pending a; deleted := deleted a; calls := calls a |}.

Definition with_pending (rs : list receipt) (a : aws) : aws :=
  {| topic_live := topic_live a; queue_live := queue_live a;
     role_live := role_live a; policies := policies a; attached := attached a;
     bucket_live := bucket_live a; objects := objects a;
     pending := rs; deleted := deleted a; calls := calls a |}.

Definition with_deleted (ms : list notification) (a : aws) : aws :=
  {| topic_live := topic_live a; queue_live := queue_live a;
     role_live := role_live a; policies := policies a; attached := attached a;
     bucket_live := bucket_live a; objects := objects a;
     pending := pending a; deleted := ms; calls := calls a |}.

Definition with_calls (cs : list call) (a : aws) : aws :=
  {| topic_live := topic_live a; queue_live := queue_live a;
     role_live := role_live a; policies := policies a; attached := attached a;
     bucket_live := bucket_live a; objects := objects a;
     pending := pending a; deleted := deleted a; calls := cs |}.

(** Nothing provisioned, nothing invoked; the queue will deliver [script]. *)
Definition untouched (script : list receipt) : aws :=
  {| topic_live := false; queue_live := false; role_live := false;
     policies := []; attached := []; bucket_live := false; objects := [];
     pending := script; deleted := []; calls := [] |}.

Definition without (x : string) (l : list string) : list string :=
  filter (fun y => negb (y == x)) l.

(** What an operation that succeeds does to the resources. *)
Definition effect (c : call) (a : aws) : aws :=
  match c with
  | CreateBucket => with_bucket_live true a
  | UploadFile path => with_objects (path :: objects a) a
  | CreateTopic _ => with_topic_live true a
  | CreateQueue _ => with_queue_live true a
  | CreateRole _ => with_role_live true a
  | CreatePolicy name => with_policies (name :: policies a) a
  | AttachRolePolicy arn => with_attached (arn :: attached a) a
  | DeleteMessage m => with_deleted (deleted a ++ [m]) a
  | DetachRolePolicy arn => with_attached (without arn (attached a)) a
  | DeletePolicy arn => with_policies (without arn (policies a)) a
  | DeleteRole => with_role_live false a
  | DeleteQueue => with_queue_live false a
  | DeleteTopic => with_topic_live false a
  | DeleteObjects => with_objects [] a
  | DeleteBucket => with_bucket_live false a
  | SetQueueAttributes | Subscribe | StartContentModeration _
  | ReceiveMessages _ | GetContentModeration _ | ListAttachedRolePolicies => a
  end.

(** How the remote services answer: which operations are refused, the
    job identifier [start_content_moderation] hands out, and the response
    of [get_content_moderation]. *)
Record service := {
  faults : call -> option exn;
  issued_job_id : string;
  job_results : response
}.

(** ** The [RekognitionVideo] object (lines 31-49) *)

Record RekognitionVideo := {
  video_name : string;
  topic : option string;
  queue : option string;
  role : option string
}.

(** The program state: the remote services and the one video object. *)
Record state := {
  cloud : aws;
  video : RekognitionVideo
}.

Definition with_cloud (a : aws) (st : state) : state :=
  {| cloud := a; video := video st |}.

Definition with_video (v : RekognitionVideo) (st : state) : state :=
  {| cloud := cloud st; video := v |}.

(** ** Computations over the state that may raise or diverge *)

Definition M (A : Type) : Type := state -> outcome A * state.

Definition ret {A} (a : A) : M A := fun st => (Returns a, st).

Definition raise {A} (e : exn) : M A := fun st => (Raises e, st).

Definition bind {A B} (m : M A) (k : A -> M B) : M B :=
  fun st =>
    match m st with
    | (Returns a, st') => k a st'
    | (Raises e, st') => (Raises e, st')
    | (Diverges, st') => (Diverges, st')
    end.

Declare Scope py_scope.
Delimit Scope py_scope with py.
Notation "x <- m ;; k" := (bind m (fun x => k))
  (at level 100, m at next level, right associativity) : py_scope.
Notation "m ;; k" := (bind m (fun _ => k))
  (at level 100, right associativity) : py_scope.
Local Open Scope py_scope.

(** Reading a field of the video object. *)
Definition field {A} (f : RekognitionVideo -> A) : M A :=
  fun st => (Returns (f (video st)), st).

(** Using a handle: attribute access on [None] raises. *)
Definition deref (h : option string) : M string :=
  match h with
  | Some x => ret x
  | None => raise AttributeError
  end.

Definition assign_topic (h : option string) : M unit :=
  fun st => (Returns tt,
    with_video {| video_name := video_name (video st); topic := h;
                  queue := queue (video st); role := role (video st) |} st).

Definition assign_queue (h : option string) : M unit :=
  fun st => (Returns tt,
    with_video {| video_name := video_name (video st); topic := topic (video st);
                  queue := h; role := role (video st) |} st).

Definition assign_role (h : option string) : M unit :=
  fun st => (Returns tt,
    with_video {| video_name := video_name (video st); topic := topic (video st);
                  queue := queue (video st); role := h |} st).

(** A [for] loop whose body may raise. *)
Fixpoint for_each {A} (xs : list A) (body : A -> M unit) : M unit :=
  match xs with
  | [] => ret tt
  | x :: xs' => body x ;; for_each xs' body
  end.

Section Program.

(** The answers of the remote services and the two keyword arguments of
    [content_moderation] that the inner class closes over. *)
Variable E : service.
Variable min_confidence : QArith_base.Q.
Variable poll_wait_time : Z.

(** One remote operation: it is recorded, then refused or carried out. *)
Definition invoke (c : call) : M unit :=
  fun st =>
    let a := with_calls (calls (cloud st) ++ [c]) (cloud st) in
    match faults E c with
    | Some e => (Raises e, with_cloud a st)
    | None => (Returns tt, with_cloud (effect c a) st)
    end.

(** Lines 51-62 and 36-49: a video object with no channel yet. *)
Definition from_bucket (key : string) : M unit :=
  fun st => (Returns tt,
    with_video {| video_name := key; topic := None; queue := None;
                  role := None |} st).

(** Lines 64-130. *)
Definition create_notification_channel (resource_name : string) : M unit :=
  invoke (CreateTopic resource_name) ;;
  assign_topic (Some resource_name) ;;
  invoke (CreateQueue resource_name) ;;
  assign_queue (Some resource_name) ;;
  invoke SetQueueAttributes ;;
  invoke Subscribe ;;
  invoke (CreateRole resource_name) ;;
  assign_role (Some resource_name) ;;
  invoke (CreatePolicy resource_name) ;;
  invoke (AttachRolePolicy resource_name).

(** Lines 132-138. *)
Definition get_notification_channel : M (string * string) :=
  r <- field role ;;
  role_arn <- deref r ;;
  t <- field topic ;;
  topic_arn <- deref t ;;
  ret (role_arn, topic_arn).

(** Lines 140-155. *)
Definition delete_notification_channel : M unit :=
  r <- field role ;;
  deref r ;;
  invoke ListAttachedRolePolicies ;;
  ps <- (fun st => (Returns (attached (cloud st)), st)) ;;
  for_each ps (fun policy =>
    invoke (DetachRolePolicy policy) ;;
    invoke (DeletePolicy policy)) ;;
  r <- field role ;;
  deref r ;;
  invoke DeleteRole ;;
  assign_role None ;;
  q <- field queue ;;
  deref q ;;
  invoke DeleteQueue ;;
  assign_queue None ;;
  t <- field topic ;;
  deref t ;;
  invoke DeleteTopic ;;
  assign_topic None.

(** Lines 166-178: the [while not job_done] loop, unrolled along what
    the queue is going to deliver.  An empty receive goes round again;
    once the queue has nothing more to deliver the loop never exits. *)
Fixpoint poll_loop (job_id : string) (script : list receipt) (st : state)
  : outcome string * state :=
  match queue (video st) with
  | None => (Raises AttributeError, st)
  | Some _ =>
    match script with
    | [] => (Diverges, st)
    | r :: rest =>
      let a := with_calls (calls (cloud st) ++ [ReceiveMessages poll_wait_time])
                          (cloud st) in
      let st1 := with_cloud (with_pending rest a) st in
      match r with
      | ReceiveError e => (Raises e, st1)
      | NoMessage => poll_loop job_id rest st1
      | Message message =>
        if negb (job_id == JobId message) then (Raises RuntimeError, st1)
        else
          let status := Status message in
          (invoke (DeleteMessage message) ;; ret status) st1
      end
    end
  end.

(** Lines 157-179. *)
Definition poll_notification (job_id : string) : M string :=
  fun st => poll_loop job_id (pending (cloud st)) st.

(** Lines 181-201: the [except ClientError] clause logs and re-raises. *)
Definition _start_rekognition_job : M string :=
  get_notification_channel ;;
  invoke (StartContentModeration min_confidence) ;;
  ret (issued_job_id E).

(** Lines 203-224. *)
Definition _get_rekognition_job_results (job_id : string) : M response :=
  invoke (GetContentModeration job_id) ;;
  ret (job_results E).

(** What [_do_rekognition_job] hands back: the response dictionary, or
    the empty list [[]] of line 244. *)
Inductive results :=
  | Response (r : response)
  | EmptyList.

(** Lines 226-245. *)
Definition _do_rekognition_job : M results :=
  job_id <- _start_rekognition_job ;;
  status <- poll_notification job_id ;;
  if status == "SUCCEEDED" then
    r <- _get_rekognition_job_results job_id ;;
    ret (Response r)
  else
    ret EmptyList.

(** Lines 248-258. *)
Definition do_content_moderation : M results := _do_rekognition_job.

(** Line 365: [get_labels['ModerationLabels']]; a list cannot be indexed
    by a string. *)
Definition getitem_ModerationLabels (get_labels : results) : M (list detection) :=
  match get_labels with
  | Response r => ret (ModerationLabels r)
  | EmptyList => raise TypeError
  end.

(** Lines 268-288: staging the video and opening the channel. *)
Definition provision (video_path : string) : M unit :=
  invoke CreateBucket ;;
  invoke (UploadFile video_path) ;;
  from_bucket video_path ;;
  create_notification_channel "test-video-rekognition".

(** Lines 294-298: deleting what was provisioned. *)
Definition cleanup : M unit :=
  delete_notification_channel ;;
  invoke DeleteObjects ;;
  invoke DeleteBucket.

(** Lines 2-516: the whole function. *)
Definition content_moderation (video_path : string)
  : M (list (string * pyval)) :=
  provision video_path ;;
  get_labels <- do_content_moderation ;;
  cleanup ;;
  ds <- getitem_ModerationLabels get_labels ;;
  ret (pred_values (classify ds)).

End Program.

(** The state in which [content_moderation] is entered. *)
Definition entry (script : list receipt) : state :=
  {| cloud := untouched script;
     video := {| video_name := ""; topic := None; queue := None; role := None |} |}.

(** ** The taxonomy as a table *)

(** The specification describes classification against a taxonomy: an
    ordered list of category keys and a mapping from label names to
    category keys.  These definitions follow its words; the theorems of
    Part II compare them with the loop above. *)
Record taxonomy := {
  category_keys : list string;
  label_map : list (string * string)
}.

(** The category a label maps to, by exact string match. *)
Definition category_of (T : taxonomy) (label : string) : option string :=
  dict_get label (label_map T).

Definition maps_to (T : taxonomy) (key : string) (d : detection) : bool :=
  match category_of T (Name (ModerationLabel d)) with
  | Some k => k == key
  | None => false
  end.

(** The number of detections whose label maps to [key]. *)
Definition hits (T : taxonomy) (key : string) (ds : list detection) : Z :=
  Z.of_nat (List.length (filter (maps_to T key) ds)).

(** The tally as the specification words it: every key of the taxonomy,
    in declaration order, with the number of detections mapped to it. *)
Definition classify_spec (T : taxonomy) (ds : list detection) : list (string * Z) :=
  map (fun key => (key, hits T key ds)) (category_keys T).

(** The taxonomy the program declares: the columns of line 302 and the
    label of each branch of the chain with the key of the counter that
    branch increments. *)
Definition deployed : taxonomy :=
  {| category_keys :=
       [ "nudity"; "graphic_male_nudity"; "graphic_female_nudity";
         "sexual_activity"; "illustrated_explicit_nudity"; "adult_toys";
         "female_swimwear_or_underwear"; "male_swimwear_or_underwear";
         "partial_nudity"; "barechested_male"; "revealing_clothes";
         "sexual_situations"; "graphic_violence_or_gore"; "physical_violence";
         "weapon_violence"; "weapons"; "self_injury"; "emaciated_bodies";
         "corpses"; "hanging"; "air_crash"; "explosions_or_blasts";
         "middle_finger"; "drug_products"; "drug_use"; "pills";
         "drug_paraphernalia"; "tobacco_products"; "smoking"; "drinking";
         "alcoholic_beverages"; "gambling"; "nazi_party"; "white_supremacy";
         "extremist" ];
     label_map :=
       [ ("Nudity", "nudity");
         ("Graphic Male Nudity", "graphic_male_nudity");
         ("Graphic Female Nudity", "graphic_female_nudity");
         ("Sexual Activity", "sexual_activity");
         ("Illustrated Explicity Nudity", "illustrated_explicit_nudity");
         ("Adult Toys", "adult_toys");
         ("Female Swimwear Or Underwear", "female_swimwear_or_underwear");
         ("Male Swimwear Or Underwear", "male_swimwear_or_underwear");
         ("Partial Nudity", "partial_nudity");
         ("Barechested Male", "barechested_male");
         ("Revealing Clothes", "revealing_clothes");
         ("Sexual Situations", "sexual_situations");
         ("Graphic Violence Or Gore", "graphic_violence_or_gore");
         ("Physical Violence", "physical_violence");
         ("Weapon Violence", "weapon_violence");
         ("Weapons", "weapons");
         ("Self Injury", "self_injury");
         ("Emaciated Bodies", "emaciated_bodies");
         ("Corpses", "corpses");
         ("Hanging", "hanging");
         ("Air Crash", "air_crash");
         ("Explosion Or Blasts", "explosions_or_blasts");
         ("Middle Finger", "middle_finger");
         ("Drug Products", "drug_products");
         ("Drug Use", "drug_use");
         ("Pills", "pills");
         ("Drug Paraphernalia", "drug_paraphernalia");
         ("Tobacco Products", "tobacco_products");
         ("Smoking", "smoking");
         ("Drinking", "drinking");
         ("Gambling", "gambling");
         ("Nazi Party", "nazi_party");
         ("White Supremacy", "white_supremacy");
         ("Extremist", "extremist") ] |}.

(** The key under which [new_row] stores a counter. *)
Definition key_of (x : counter) : string :=
  match x with
  | nudity => "nudity"
  | graphic_male_nudity => "graphic_male_nudity"
  | graphic_female_nudity => "graphic_female_nudity"
  | sexual_activity => "sexual_activity"
  | illustrated_explicit_nudity => "illustrated_explicit_nudity"
  | adult_toys => "adult_toys"
  | female_swimwear_or_underwear => "female_swimwear_or_underwear"
  | male_swimwear_or_underwear => "male_swimwear_or_underwear"
  | partial_nudity => "partial_nudity"
  | barechested_male => "barechested_male"
  | revealing_clothes => "revealing_clothes"
  | sexual_situations => "sexual_situations"
  | graphic_violence_or_gore => "graphic_violence_or_gore"
  | physical_violence => "physical_violence"
  | weapon_violence => "weapon_violence"
  | weapons => "weapons"
  | self_injury => "self_injury"
  | emaciated_bodies => "emaciated_bodies"
  | corpses => "corpses"
  | hanging => "hanging"
  | air_crash => "air_crash"
  | explosions_or_blasts => "explosions_or_blasts"
  | middle_finger => "middle_finger"
  | drug_products => "drug_products"
  | drug_use => "drug_use"
  | pills => "pills"
  | drug_paraphernalia => "drug_paraphernalia"
  | tobacco_products => "tobacco_products"
  | smoking => "smoking"
  | drinking => "drinking"
  | alcoholic_beverages => "alcoholic_beverages"
  | gambling => "gambling"
  | nazi_party => "nazi_party"
  | white_supremacy => "white_supremacy"
  | extremist => "extremist"
  end.

(** All counters, in the order of [new_row]. *)
Definition all_counters : list counter :=
  [ nudity; graphic_male_nudity; graphic_female_nudity; sexual_activity;
    illustrated_explicit_nudity; adult_toys; female_swimwear_or_underwear;
    male_swimwear_or_underwear; partial_nudity; barechested_male;
    revealing_clothes; sexual_situations; graphic_violence_or_gore;
    physical_violence; weapon_violence; weapons; self_injury;
    emaciated_bodies; corpses; hanging; air_crash; explosions_or_blasts;
    middle_finger; drug_products; drug_use; pills; drug_paraphernalia;
    tobacco_products; smoking; drinking; alcoholic_beverages; gambling;
    nazi_party; white_supremacy; extremist ].

(** The counter a label increments, if any: the chain read as a lookup. *)
Definition counter_of (label : string) : option counter :=
  match category_of deployed label with
  | Some key => find (fun x => key_of x == key) all_counters
  | None => None
  end.

(** ** Vocabulary of the statements *)

(** A tally whose counts are all non-negative. *)
Definition nonnegative (row : list (string * Z)) : Prop :=
  Forall (fun kv => 0 <= snd kv) row.

(** Whether the services refuse an operation, and whether they carry
    out every operation of a list. *)
Definition refused (E : service) (c : call) : bool :=
  match faults E c with
  | Some _ => true
  | None => false
  end.

Definition accepts (E : service) (cs : list call) : bool :=
  forallb (fun c => negb (refused E c)) cs.

(** The operations of lines 268-288, in order. *)
Definition provision_calls (video_path : string) : list call :=
  [ CreateBucket; UploadFile video_path;
    CreateTopic "test-video-rekognition"; CreateQueue "test-video-rekognition";
    SetQueueAttributes; Subscribe;
    CreateRole "test-video-rekognition"; CreatePolicy "test-video-rekognition";
    AttachRolePolicy "test-video-rekognition" ].

(** The state right after lines 268-288 went through. *)
Definition opened (video_path : string) (script : list receipt) : state :=
  {| cloud :=
       {| topic_live := true; queue_live := true; role_live := true;
          policies := ["test-video-rekognition"];
          attached := ["test-video-rekognition"];
          bucket_live := true; objects := [video_path];
          pending := script; deleted := [];
          calls := provision_calls video_path |};
     video :=
       {| video_name := video_path;
          topic := Some "test-video-rekognition";
          queue := Some "test-video-rekognition";
          role := Some "test-video-rekognition" |} |}.

(** The three sub-resources of the channel: topic, queue and the
    authorization grant (the role and the policy attached to it). *)
Definition channel_intact (a : aws) : bool :=
  topic_live a && queue_live a && role_live a
  && match attached a with [] => false | _ :: _ => true end.

Definition channel_absent (a : aws) : bool :=
  negb (topic_live a) && negb (queue_live a) && negb (role_live a)
  && match attached a with [] => true | _ :: _ => false end
  && match policies a with [] => true | _ :: _ => false end.

(** The operations of the job itself (lines 181-245). *)
Definition is_job_call (c : call) : bool :=
  match c with
  | StartContentModeration _ | ReceiveMessages _ | DeleteMessage _
  | GetContentModeration _ => true
  | _ => false
  end.

Definition is_fetch (c : call) : bool :=
  match c with
  | GetContentModeration _ => true
  | _ => false
  end.

Definition is_delete_message (c : call) : bool :=
  match c with
  | DeleteMessage _ => true
  | _ => false
  end.

(** The operations of lines 294-298. *)
Definition is_teardown (c : call) : bool :=
  match c with
  | ListAttachedRolePolicies | DetachRolePolicy _ | DeletePolicy _
  | DeleteRole | DeleteQueue | DeleteTopic | DeleteObjects | DeleteBucket => true
  | _ => false
  end.

(** The deletions that come after the role's. *)
Definition is_later_deletion (c : call) : bool :=
  match c with
  | DeleteQueue | DeleteTopic => true
  | _ => false
  end.

(** The resources, without the queue's deliveries and the trace. *)
Definition resources (a : aws) :=
  (topic_live a, queue_live a, role_live a, policies a, attached a,
   bucket_live a, objects a).

(** [st'] differs from [st] only by operations of the job: the video
    object and every provisioned resource are as they were. *)
Definition job_only (st st' : state) : Prop :=
  video st' = video st /\
  resources (cloud st') = resources (cloud st) /\
  exists cs, calls (cloud st') = calls (cloud st) ++ cs /\
             forallb is_job_call cs = true.

(** A computation every run of which only adds operations of the job. *)
Definition job_computation {A} (m : M A) : Prop :=
  forall st, job_only st (snd (m st)).

(** The state after [n] receives that came back empty, when [rest] is
    then still to be delivered. *)
Fixpoint polled (w : Z) (n : nat) (rest : list receipt) (st : state) : state :=
  match n with
  | O => st
  | S n' =>
    polled w n' rest
      (with_cloud
         (with_pending (repeat NoMessage n' ++ rest)
            (with_calls (calls (cloud st) ++ [ReceiveMessages w]) (cloud st)))
         st)
  end.

(** The state right after [start_content_moderation] accepted the job. *)
Definition started (mc : QArith_base.Q) (video_path : string)
           (script : list receipt) : state :=
  with_cloud
    (with_calls (provision_calls video_path ++ [StartContentModeration mc])
       (cloud (opened video_path script)))
    (opened video_path script).

(** The operations [delete_notification_channel] goes through when none
    is refused, given the policies attached to the role. *)
Definition close_plan (ps : list string) : list call :=
  ListAttachedRolePolicies
  :: flat_map (fun policy => [DetachRolePolicy policy; DeletePolicy policy]) ps
  ++ [DeleteRole; DeleteQueue; DeleteTopic].

(** The operations invoked when a plan stops at the first refusal, and
    the exception of that refusal. *)
Fixpoint attempted (E : service) (plan : list call) : list call :=
  match plan with
  | [] => []
  | c :: rest => c :: (if refused E c then [] else attempted E rest)
  end.

Fixpoint first_fault (E : service) (plan : list call) : option exn :=
  match plan with
  | [] => None
  | c :: rest =>
    match faults E c with
    | Some e => Some e
    | None => first_fault E rest
    end
  end.

(** A channel whose three handles are set, and one whose handles are all
    [None] (what a completed [delete_notification_channel] leaves). *)
Definition is_open (v : RekognitionVideo) : Prop :=
  topic v <> None /\ queue v <> None /\ role v <> None.

Definition is_closed (v : RekognitionVideo) : Prop :=
  topic v = None /\ queue v = None /\ role v = None.

(** A failure at the job-start, await-completion or result-fetch step,
    with the exception it raises, for a job started with [mc] on a queue
    that is going to deliver [script]. *)
Inductive injected_failure (E : service) (mc : QArith_base.Q)
          (script : list receipt) : exn -> Prop :=
  | fail_start e :
      faults E (StartContentModeration mc) = Some e ->
      injected_failure E mc script e
  | fail_await_mismatch n m rest :
      faults E (StartContentModeration mc) = None ->
      script = repeat NoMessage n ++ Message m :: rest ->
      JobId m <> issued_job_id E ->
      injected_failure E mc script RuntimeError
  | fail_await_receive n e rest :
      faults E (StartContentModeration mc) = None ->
      script = repeat NoMessage n ++ ReceiveError e :: rest ->
      injected_failure E mc script e
  | fail_await_acknowledge n m rest e :
      faults E (StartContentModeration mc) = None ->
      script = repeat NoMessage n ++ Message m :: rest ->
      JobId m = issued_job_id E ->
      faults E (DeleteMessage m) = Some e ->
      injected_failure E mc script e
  | fail_fetch n m rest e :
      faults E (StartContentModeration mc) = None ->
      script = repeat NoMessage n ++ Message m :: rest ->
      JobId m = issued_job_id E ->
      faults E (DeleteMessage m) = None ->
      Status m = "SUCCEEDED" ->
      faults E (GetContentModeration (issued_job_id E)) = Some e ->
      injected_failure E mc script e.

(** ** Sample data *)

(** A detection carrying the given label name. *)
Definition labelled (name : string) : detection :=
  {| Timestamp := 0;
     ModerationLabel := {| Confidence := QArith_base.Qmake 99 1;
                           Name := name; ParentName := "" |} |}.

(** Two mapped labels, one of them twice, and a label the chain does not
    know. *)
Definition sample_detections : list detection :=
  [ labelled "Nudity"; labelled "Weapons"; labelled "Nudity";
    labelled "Alcoholic Beverages" ].

(** Another taxonomy: the declared one with one more entry, mapping the
    label ["Alcoholic Beverages"] to the key [alcoholic_beverages]. *)
Definition with_alcohol_label : taxonomy :=
  {| category_keys := category_keys deployed;
     label_map := ("Alcoholic Beverages", "alcoholic_beverages")
                  :: label_map deployed |}.

(** Services that refuse nothing, hand out the job identifier ["job-1"]
    and report the sample detections. *)
Definition obliging : service :=
  {| faults := fun _ => None;
     issued_job_id := "job-1";
     job_results := {| JobStatus := "SUCCEEDED";
                       ModerationLabels := sample_detections |} |}.

(** The same services, refusing to start the job. *)
Definition start_refusing : service :=
  {| faults := fun c =>
       match c with
       | StartContentModeration _ => Some (ClientError "StartContentModeration")
       | _ => None
       end;
     issued_job_id := issued_job_id obliging;
     job_results := job_results obliging |}.

(** The same services, refusing to delete the role. *)
Definition role_keeping : service :=
  {| faults := fun c =>
       match c with
       | DeleteRole => Some (ClientError "DeleteRole")
       | _ => None
       end;
     issued_job_id := issued_job_id obliging;
     job_results := job_results obliging |}.

(** The default arguments of [content_moderation] (line 2). *)
Definition default_min_confidence : QArith_base.Q := QArith_base.Qmake 80 1.
Definition default_poll_wait_time : Z := 10.

(** Completion messages. *)
Definition succeeded (job_id : string) : notification :=
  {| JobId := job_id; Status := "SUCCEEDED" |}.

Definition failed (job_id : string) : notification :=
  {| JobId := job_id; Status := "FAILED" |}.

(** ** Vocabulary of the further properties *)

(** Whether the chain has a branch for the label of a detection. *)
Definition mapped (d : detection) : bool :=
  match category_of deployed (Name (ModerationLabel d)) with
  | Some _ => true
  | None => false
  end.

(** The label names of a sequence of detections, in order. *)
Definition label_names (ds : list detection) : list string :=
  map (fun d => Name (ModerationLabel d)) ds.

(** Two rows over the same keys, added count by count. *)
Definition add_rows (r1 r2 : list (string * Z)) : list (string * Z) :=
  map (fun p => (fst (fst p), snd (fst p) + snd (snd p))) (combine r1 r2).

(** The state after an operation that was carried out, and after a list
    of them. *)
Definition performed (c : call) (st : state) : state :=
  with_cloud (effect c (with_calls (calls (cloud st) ++ [c]) (cloud st))) st.

Definition performed_all (cs : list call) (st : state) : state :=
  fold_left (fun s c => performed c s) cs st.

(** The state after one more receive, when [rest] is then still to be
    delivered. *)
Definition received (w : Z) (rest : list receipt) (st : state) : state :=
  with_cloud
    (with_pending rest
       (with_calls (calls (cloud st) ++ [ReceiveMessages w]) (cloud st)))
    st.

(** The state after [n] empty receives, the receive of [m] and the
    deletion of [m]. *)
Definition acknowledged (w : Z) (n : nat) (m : notification)
           (rest : list receipt) (st : state) : state :=
  performed (DeleteMessage m)
    (received w rest (polled w n (Message m :: rest) st)).

(** The state after an operation that was refused: it is only recorded. *)
Definition logged (c : call) (st : state) : state :=
  with_cloud (with_calls (calls (cloud st) ++ [c]) (cloud st)) st.

(** The state after an assignment to a handle of the video object. *)
Definition put_topic (h : option string) (st : state) : state :=
  with_video {| video_name := video_name (video st); topic := h;
                queue := queue (video st); role := role (video st) |} st.

Definition put_queue (h : option string) (st : state) : state :=
  with_video {| video_name := video_name (video st); topic := topic (video st);
                queue := h; role := role (video st) |} st.

Definition put_role (h : option string) (st : state) : state :=
  with_video {| video_name := video_name (video st); topic := topic (video st);
                queue := queue (video st); role := h |} st.

(** The operations of [create_notification_channel], in order. *)
Definition open_plan (resource_name : string) : list call :=
  [ CreateTopic resource_name; CreateQueue resource_name;
    SetQueueAttributes; Subscribe;
    CreateRole resource_name; CreatePolicy resource_name;
    AttachRolePolicy resource_name ].

(** The operations of lines 294-298 on a channel with the attached
    policies [ps]. *)
Definition cleanup_plan (ps : list string) : list call :=
  close_plan ps ++ [DeleteObjects; DeleteBucket].

(** A list of names after every name of [ps] was taken out of it. *)
Definition strip (ps l : list string) : list string :=
  fold_left (fun acc p => without p acc) ps l.

(** The operations of the loop of lines 144-146 on the policies [ps]. *)
Definition detach_plan (ps : list string) : list call :=
  flat_map (fun policy => [DetachRolePolicy policy; DeletePolicy policy]) ps.

(** The state after [create_notification_channel] went through. *)
Definition created (resource_name : string) (st : state) : state :=
  performed (AttachRolePolicy resource_name)
    (performed (CreatePolicy resource_name)
       (put_role (Some resource_name)
          (performed (CreateRole resource_name)
             (performed Subscribe
                (performed SetQueueAttributes
                   (put_queue (Some resource_name)
                      (performed (CreateQueue resource_name)
                         (put_topic (Some resource_name)
                            (performed (CreateTopic resource_name) st))))))))).

(** The state after [delete_notification_channel] went through, when the
    policies [ps] were attached to the role. *)
Definition torn_down (ps : list string) (st : state) : state :=
  put_topic None
    (performed DeleteTopic
       (put_queue None
          (performed DeleteQueue
             (put_role None
                (performed DeleteRole
                   (performed_all (detach_plan ps)
                      (performed ListAttachedRolePolicies st))))))).

(** The video object with its three handles set to [h]. *)
Definition with_handles (h : option string) (v : RekognitionVideo)
  : RekognitionVideo :=
  {| video_name := video_name v; topic := h; queue := h; role := h |}.

(* ===================================================================== *)
(** * Part II: theorems *)
(* ===================================================================== *)

(** ** The classification loop *)

(** One round of the loop increments the counter the table names. *)
Lemma tally_step_counter_of (s : counters) (d : detection) :
  tally_step s d =
  match counter_of (Name (ModerationLabel d)) with
  | Some x => incr x s
  | None => s
  end.
Proof.
  unfold tally_step, counter_of, category_of.
  cbv [deployed label_map dict_get].
  generalize (Name (ModerationLabel d)); intro label.
  repeat (destruct (label == _); [reflexivity|]).
  reflexivity.
Qed.

(** The counter a label increments is the one stored under the key the
    table gives for the label. *)
Lemma counter_of_maps_to (x : counter) (d : detection) :
  match counter_of (Name (ModerationLabel d)) with
  | Some y => counter_beq x y
  | None => false
  end = maps_to deployed (key_of x) d.
Proof.
  unfold maps_to, counter_of, category_of.
  cbv [deployed label_map dict_get].
  generalize (Name (ModerationLabel d)); intro label.
  repeat (destruct (label == _); [destruct x; reflexivity|]).
  reflexivity.
Qed.

Lemma incr_apply (x y : counter) (s : counters) :
  incr x s y = s y + (if counter_beq y x then 1 else 0).
Proof. unfold incr. destruct (counter_beq y x); lia. Qed.

(** After the loop a counter holds its initial value plus the number of
    detections mapped to its key. *)
Lemma fold_tally_hits (ds : list detection) :
  forall (s : counters) (x : counter),
    fold_left tally_step ds s x = s x + hits deployed (key_of x) ds.
Proof.
  unfold hits.
  induction ds as [|d ds IH]; intros s x; cbn [fold_left filter].
  - simpl. lia.
  - rewrite IH, tally_step_counter_of, <- counter_of_maps_to.
    destruct (counter_of (Name (ModerationLabel d))) as [y|].
    + rewrite incr_apply.
      destruct (counter_beq x y); cbn [List.length]; lia.
    + lia.
Qed.

Lemma tally_labels_hits (ds : list detection) (x : counter) :
  tally_labels ds x = hits deployed (key_of x) ds.
Proof. unfold tally_labels. rewrite fold_tally_hits. reflexivity. Qed.

(** The loop followed by [new_row] computes the tally of the table. *)
Lemma classify_refines_spec (ds : list detection) :
  classify ds = classify_spec deployed ds.
Proof.
  unfold classify, new_row, classify_spec.
  rewrite !tally_labels_hits. reflexivity.
Qed.

(** ** Facts about the tally of a table, for any taxonomy *)

Section Tally.

Variable T : taxonomy.

Lemma dict_get_keyed {V : Type} (f : string -> V) (keys : list string) (key : string) :
  In key keys -> dict_get key (map (fun k => (k, f k)) keys) = Some (f key).
Proof.
  induction keys as [|k keys IH]; intros Hin; [contradiction|].
  cbn [map dict_get].
  destruct (String.eqb_spec key k) as [->|Hne]; [reflexivity|].
  destruct Hin as [Heq|Hin]; [congruence|auto].
Qed.

Lemma classify_spec_keys (ds : list detection) :
  map fst (classify_spec T ds) = category_keys T.
Proof.
  unfold classify_spec. rewrite map_map. cbn [fst]. apply map_id.
Qed.

Lemma hits_nonneg (key : string) (ds : list detection) : 0 <= hits T key ds.
Proof. unfold hits. lia. Qed.

Lemma hits_none (key : string) (ds : list detection) :
  (forall d, In d ds -> maps_to T key d = false) -> hits T key ds = 0.
Proof.
  unfold hits. induction ds as [|d ds IH]; intros Hno; [reflexivity|].
  cbn [filter]. rewrite (Hno d (or_introl eq_refl)).
  apply IH. intros d' Hd'. apply Hno. right. exact Hd'.
Qed.

Lemma hits_app (key : string) (ds1 ds2 : list detection) :
  hits T key (ds1 ++ ds2) = hits T key ds1 + hits T key ds2.
Proof. unfold hits. rewrite filter_app, length_app. lia. Qed.

Lemma hits_cons (key : string) (d : detection) (ds : list detection) :
  hits T key (d :: ds) = (if maps_to T key d then 1 else 0) + hits T key ds.
Proof.
  unfold hits. cbn [filter].
  destruct (maps_to T key d); cbn [List.length]; lia.
Qed.

Lemma unmapped_maps_to (key : string) (d : detection) :
  category_of T (Name (ModerationLabel d)) = None -> maps_to T key d = false.
Proof. unfold maps_to. intros ->. reflexivity. Qed.

Lemma hits_perm (key : string) (ds ds' : list detection) :
  Permutation ds ds' -> hits T key ds = hits T key ds'.
Proof.
  induction 1 as [|d l l' _ IH|d d' l|l l' l'' _ IH1 _ IH2].
  - reflexivity.
  - rewrite !hits_cons, IH. reflexivity.
  - rewrite !hits_cons. lia.
  - congruence.
Qed.

Lemma classify_spec_ext (ds ds' : list detection) :
  (forall key, hits T key ds = hits T key ds') ->
  classify_spec T ds = classify_spec T ds'.
Proof.
  intros Heq. unfold classify_spec. apply map_ext. intros key.
  rewrite Heq. reflexivity.
Qed.

End Tally.

(** C1, as the program has it.  The taxonomy is not an argument: it is
    the one the program declares.  For that taxonomy and every sequence
    of detections, the tally holds every category key of the taxonomy,
    in declaration order, each with the number of detections whose label
    name maps to that key (exact string match); a key that no detection
    maps to has count 0, and a detection whose label has no entry in the
    taxonomy leaves the tally as if it were not there. *)
Theorem classify_counts_per_category (ds : list detection) :
  classify ds = classify_spec deployed ds /\
  map fst (classify ds) = category_keys deployed /\
  (forall key, In key (category_keys deployed) ->
     dict_get key (classify ds) = Some (hits deployed key ds)) /\
  (forall key, In key (category_keys deployed) ->
     (forall d, In d ds -> maps_to deployed key d = false) ->
     dict_get key (classify ds) = Some 0) /\
  (forall d ds1 ds2, ds = ds1 ++ d :: ds2 ->
     category_of deployed (Name (ModerationLabel d)) = None ->
     classify ds = classify (ds1 ++ ds2)).
Proof.
  rewrite classify_refines_spec.
  split; [reflexivity|].
  split; [apply classify_spec_keys|].
  split; [|split].
  - intros key Hin. unfold classify_spec.
    apply (dict_get_keyed (fun k => hits deployed k ds)). exact Hin.
  - intros key Hin Hno. unfold classify_spec.
    rewrite (dict_get_keyed (fun k => hits deployed k ds)) by exact Hin.
    rewrite hits_none by exact Hno. reflexivity.
  - intros d ds1 ds2 -> Hnone. rewrite classify_refines_spec.
    apply classify_spec_ext. intros key.
    rewrite !hits_app, hits_cons, unmapped_maps_to by exact Hnone. lia.
Qed.

(** C8. Two sequences of detections that are permutations of each other
    get the same tally from the program, and the same tally of the table
    for every taxonomy. *)
Theorem classify_permutation (ds ds' : list detection) :
  Permutation ds ds' ->
  classify ds = classify ds' /\
  (forall T : taxonomy, classify_spec T ds = classify_spec T ds').
Proof.
  intros Hperm.
  assert (Hspec : forall T, classify_spec T ds = classify_spec T ds').
  { intros T. apply classify_spec_ext. intros key.
    apply hits_perm. exact Hperm. }
  split; [|exact Hspec].
  rewrite !classify_refines_spec. apply Hspec.
Qed.

(** C9. No round of the loop changes the counter [alcoholic_beverages];
    its key is declared in the taxonomy, is present in every tally, and
    always holds 0, in the tally and in the dictionary made from it. *)
Theorem alcoholic_beverages_always_zero (ds : list detection) :
  (forall s d, tally_step s d alcoholic_beverages = s alcoholic_beverages) /\
  In "alcoholic_beverages" (category_keys deployed) /\
  In "alcoholic_beverages" (map fst (classify ds)) /\
  dict_get "alcoholic_beverages" (classify ds) = Some 0 /\
  dict_get "alcoholic_beverages" (pred_values (classify ds)) = Some (PyInt 0).
Proof.
  assert (Hstep : forall s d,
             tally_step s d alcoholic_beverages = s alcoholic_beverages).
  { intros s d. unfold tally_step.
    generalize (Name (ModerationLabel d)); intro label.
    repeat (destruct (label == _); [reflexivity|]).
    reflexivity. }
  assert (Hloop : forall l s,
             fold_left tally_step l s alcoholic_beverages = s alcoholic_beverages).
  { induction l as [|d l IH]; intros s; cbn [fold_left]; [reflexivity|].
    rewrite IH. apply Hstep. }
  split; [exact Hstep|].
  split; [cbn; tauto|].
  split; [cbn; tauto|].
  assert (Hzero : tally_labels ds alcoholic_beverages = 0)
    by (unfold tally_labels; apply Hloop).
  split.
  - change (dict_get "alcoholic_beverages" (classify ds))
      with (Some (tally_labels ds alcoholic_beverages)).
    rewrite Hzero. reflexivity.
  - change (dict_get "alcoholic_beverages" (pred_values (classify ds)))
      with (Some (PyInt (tally_labels ds alcoholic_beverages))).
    rewrite Hzero. reflexivity.
Qed.

Lemma classify_counts_per_category_witness :
  dict_get "nudity" (classify sample_detections) = Some 2 /\
  dict_get "weapons" (classify sample_detections) = Some 1 /\
  dict_get "alcoholic_beverages" (classify sample_detections) = Some 0 /\
  classify sample_detections =
    classify [labelled "Nudity"; labelled "Weapons"; labelled "Nudity"].
Proof.
  destruct (classify_counts_per_category sample_detections)
    as (_ & _ & Hcount & Hzero & Hignored).
  split; [|split; [|split]].
  - rewrite Hcount; [reflexivity|]. cbn. tauto.
  - rewrite Hcount; [reflexivity|]. cbn. tauto.
  - apply Hzero; [cbn; tauto|].
    intros d Hd. cbn in Hd.
    destruct Hd as [<-|[<-|[<-|[<-|[]]]]]; reflexivity.
  - apply (Hignored (labelled "Alcoholic Beverages")
             [labelled "Nudity"; labelled "Weapons"; labelled "Nudity"] []);
      reflexivity.
Defined.

(** C1, as stated, fails for a taxonomy other than the declared one: the
    tally of the program does not follow the entry that
    [with_alcohol_label] adds. *)
Lemma other_taxonomy_counterexample :
  let ds := [labelled "Alcoholic Beverages"] in
  In "alcoholic_beverages" (category_keys with_alcohol_label) /\
  hits with_alcohol_label "alcoholic_beverages" ds = 1 /\
  dict_get "alcoholic_beverages" (classify ds) = Some 0 /\
  classify ds <> classify_spec with_alcohol_label ds.
Proof.
  cbv zeta. split; [cbn; tauto|]. split; [reflexivity|].
  split; [reflexivity|].
  intros Heq.
  apply (f_equal (dict_get "alcoholic_beverages")) in Heq.
  vm_compute in Heq. discriminate Heq.
Qed.

Lemma classify_permutation_witness :
  classify [labelled "Nudity"; labelled "Weapons"] =
  classify [labelled "Weapons"; labelled "Nudity"].
Proof. apply (classify_permutation _ _ (perm_swap _ _ [])). Defined.

(** ** The verdict *)

Lemma labels_count_nonneg (row : list (string * Z)) :
  nonnegative row -> 0 <= labels_count row.
Proof.
  unfold labels_count. induction 1 as [|kv row Hkv _ IH]; cbn [map fold_right]; lia.
Qed.

Lemma labels_count_bounds_entry (row : list (string * Z)) (key : string) (n : Z) :
  nonnegative row -> In (key, n) row -> 0 <= n <= labels_count row.
Proof.
  unfold labels_count.
  induction 1 as [|kv row Hkv Hrow IH]; intros Hin; [contradiction|].
  cbn [map fold_right].
  pose proof (labels_count_nonneg row Hrow) as Hsum. unfold labels_count in Hsum.
  destruct Hin as [->|Hin].
  - cbn [snd] in *. lia.
  - specialize (IH Hin). lia.
Qed.

Lemma classify_nonnegative (ds : list detection) : nonnegative (classify ds).
Proof.
  rewrite classify_refines_spec. unfold nonnegative, classify_spec.
  apply Forall_forall. intros kv Hin.
  apply in_map_iff in Hin. destruct Hin as (key & <- & _).
  apply hits_nonneg.
Qed.

(** C2. For every tally (counts are non-negative), the verdict is
    allowed exactly when the sum of all counts is 0, and a single
    nonzero count makes it rejected. *)
Theorem verdict_allowed_iff_sum_zero (row : list (string * Z)) :
  nonnegative row ->
  (verdict row = "allowed" <-> labels_count row = 0) /\
  (verdict row = "rejected" <-> labels_count row <> 0) /\
  ((exists key n, In (key, n) row /\ n <> 0) -> verdict row = "rejected").
Proof.
  intros Hrow. pose proof (labels_count_nonneg row Hrow) as Hsum.
  unfold verdict.
  destruct (Z.ltb_spec (labels_count row) 1) as [Hlt|Hge].
  - split; [|split].
    + split; [lia|reflexivity].
    + split; [discriminate|lia].
    + intros (key & n & Hin & Hn).
      pose proof (labels_count_bounds_entry row key n Hrow Hin). lia.
  - split; [|split].
    + split; [discriminate|lia].
    + split; [lia|reflexivity].
    + reflexivity.
Qed.

Lemma verdict_allowed_iff_sum_zero_witness :
  verdict (classify sample_detections) = "rejected" /\
  verdict (classify []) = "allowed".
Proof.
  split.
  - apply (verdict_allowed_iff_sum_zero (classify sample_detections)
             (classify_nonnegative sample_detections)).
    exists "nudity", 2. split; [cbn; tauto|discriminate].
  - apply (verdict_allowed_iff_sum_zero (classify [])
             (classify_nonnegative [])).
    reflexivity.
Defined.

(** ** Stepping through the program *)

Lemma accepts_in (E : service) (cs : list call) :
  accepts E cs = true -> forall c, In c cs -> faults E c = None.
Proof.
  unfold accepts. rewrite forallb_forall. intros Hall c Hin.
  specialize (Hall c Hin). unfold refused in Hall.
  destruct (faults E c); [discriminate|reflexivity].
Qed.

(** Lines 268-288 go through when none of their operations is refused. *)
Lemma provision_opened (E : service) (video_path : string) (script : list receipt) :
  accepts E (provision_calls video_path) = true ->
  provision E video_path (entry script) = (Returns tt, opened video_path script).
Proof.
  intros Hacc. pose proof (accepts_in E _ Hacc) as Hok.
  unfold provision, create_notification_channel, bind, invoke, entry.
  cbn.
  repeat (rewrite Hok by (cbn; tauto); cbn).
  reflexivity.
Qed.

(** ** The job leaves the provisioned resources alone *)

Lemma job_only_refl (st : state) : job_only st st.
Proof.
  repeat split. exists []. rewrite app_nil_r. split; reflexivity.
Qed.

Lemma job_only_trans (st1 st2 st3 : state) :
  job_only st1 st2 -> job_only st2 st3 -> job_only st1 st3.
Proof.
  intros (Hv1 & Hr1 & cs1 & Hc1 & Hj1) (Hv2 & Hr2 & cs2 & Hc2 & Hj2).
  split; [congruence|]. split; [congruence|].
  exists (cs1 ++ cs2). split.
  - rewrite Hc2, Hc1, app_assoc. reflexivity.
  - rewrite forallb_app, Hj1, Hj2. reflexivity.
Qed.

Create HintDb job discriminated.

Lemma job_ret {A} (a : A) : job_computation (ret a).
Proof. intros st. apply job_only_refl. Qed.

Lemma job_raise {A} (e : exn) : job_computation (@raise A e).
Proof. intros st. apply job_only_refl. Qed.

Lemma job_field {A} (f : RekognitionVideo -> A) : job_computation (field f).
Proof. intros st. apply job_only_refl. Qed.

Lemma job_deref (h : option string) : job_computation (deref h).
Proof. destruct h; [apply job_ret|apply job_raise]. Qed.

Lemma job_bind {A B} (m : M A) (k : A -> M B) :
  job_computation m -> (forall a, job_computation (k a)) ->
  job_computation (bind m k).
Proof.
  intros Hm Hk st. unfold bind. specialize (Hm st).
  destruct (m st) as [[a| e |] st1]; cbn [snd] in *; try exact Hm.
  eapply job_only_trans; [exact Hm|apply Hk].
Qed.

Lemma job_invoke (E : service) (c : call) :
  is_job_call c = true -> job_computation (invoke E c).
Proof.
  intros Hc st. unfold invoke.
  destruct (faults E c); cbn [snd].
  - split; [reflexivity|]. split; [reflexivity|].
    exists [c]. split; [reflexivity|]. cbn. rewrite Hc. reflexivity.
  - split; [reflexivity|]. split.
    + destruct c; try discriminate Hc; reflexivity.
    + exists [c]. split.
      * destruct c; try discriminate Hc; reflexivity.
      * cbn. rewrite Hc. reflexivity.
Qed.

#[local] Hint Resolve job_ret job_raise job_field job_deref job_bind job_invoke : job.

Lemma job_poll_loop (E : service) (w : Z) (job_id : string) (script : list receipt) :
  forall st, job_only st (snd (poll_loop E w job_id script st)).
Proof.
  induction script as [|r rest IH]; intros st; cbn [poll_loop];
    destruct (queue (video st)) eqn:Hq; try apply job_only_refl.
  assert (Hstep : job_only st
            (with_cloud (with_pending rest
               (with_calls (calls (cloud st) ++ [ReceiveMessages w]) (cloud st))) st)).
  { split; [reflexivity|]. split; [reflexivity|].
    exists [ReceiveMessages w]. split; reflexivity. }
  destruct r as [|m|e].
  - eapply job_only_trans; [exact Hstep|apply IH].
  - destruct (negb (job_id == JobId m)); [exact Hstep|].
    eapply job_only_trans; [exact Hstep|].
    apply (job_bind (invoke E (DeleteMessage m)) (fun _ => ret (Status m)));
      auto with job.
  - exact Hstep.
Qed.

Lemma job_poll_notification (E : service) (w : Z) (job_id : string) :
  job_computation (poll_notification E w job_id).
Proof. intros st. apply job_poll_loop. Qed.

#[local] Hint Resolve job_poll_notification : job.

Lemma job_do_content_moderation (E : service) (mc : QArith_base.Q) (w : Z) :
  job_computation (do_content_moderation E mc w).
Proof.
  unfold do_content_moderation, _do_rekognition_job.
  apply job_bind.
  - unfold _start_rekognition_job, get_notification_channel. auto 20 with job.
  - intros job_id. apply job_bind; [auto with job|]. intros status.
    unfold _get_rekognition_job_results.
    destruct (status == "SUCCEEDED"); auto 10 with job.
Qed.

(** ** Outcomes of the polling loop *)

Lemma bind_Returns {A B} (m : M A) (k : A -> M B) (st st' : state) (a : A) :
  m st = (Returns a, st') -> bind m k st = k a st'.
Proof. unfold bind. intros ->. reflexivity. Qed.

Lemma bind_Raises {A B} (m : M A) (k : A -> M B) (st st' : state) (e : exn) :
  m st = (Raises e, st') -> bind m k st = (Raises e, st').
Proof. unfold bind. intros ->. reflexivity. Qed.

Lemma polled_video (w : Z) (n : nat) (rest : list receipt) :
  forall st, video (polled w n rest st) = video st.
Proof. induction n as [|n IH]; intros st; cbn [polled]; [reflexivity|]. rewrite IH. reflexivity. Qed.

Lemma polled_resources (w : Z) (n : nat) (rest : list receipt) :
  forall st, resources (cloud (polled w n rest st)) = resources (cloud st).
Proof. induction n as [|n IH]; intros st; cbn [polled]; [reflexivity|]. rewrite IH. reflexivity. Qed.

Lemma polled_deleted (w : Z) (n : nat) (rest : list receipt) :
  forall st, deleted (cloud (polled w n rest st)) = deleted (cloud st).
Proof. induction n as [|n IH]; intros st; cbn [polled]; [reflexivity|]. rewrite IH. reflexivity. Qed.

Lemma polled_calls (w : Z) (n : nat) (rest : list receipt) :
  forall st, calls (cloud (polled w n rest st)) =
             calls (cloud st) ++ repeat (ReceiveMessages w) n.
Proof.
  induction n as [|n IH]; intros st; cbn [polled repeat].
  - rewrite app_nil_r. reflexivity.
  - rewrite IH. cbn. rewrite <- app_assoc. reflexivity.
Qed.

(** Receives that come back empty only go round the loop. *)
Lemma poll_loop_skip (E : service) (w : Z) (job_id : string) (n : nat)
      (rest : list receipt) :
  forall st, queue (video st) <> None ->
    poll_loop E w job_id (repeat NoMessage n ++ rest) st =
    poll_loop E w job_id rest (polled w n rest st).
Proof.
  induction n as [|n IH]; intros st Hq; [reflexivity|].
  cbn [repeat app poll_loop polled].
  destruct (queue (video st)) eqn:Hq'; [|congruence].
  apply IH. cbn. rewrite Hq'. discriminate.
Qed.

(** A message for another job: [RuntimeError], raised right after the
    receive. *)
Lemma poll_loop_mismatch (E : service) (w : Z) (job_id : string)
      (m : notification) (rest : list receipt) (st : state) :
  queue (video st) <> None -> JobId m <> job_id ->
  poll_loop E w job_id (Message m :: rest) st =
  (Raises RuntimeError,
   with_cloud (with_pending rest
     (with_calls (calls (cloud st) ++ [ReceiveMessages w]) (cloud st))) st).
Proof.
  intros Hq Hne. cbn [poll_loop].
  destruct (queue (video st)); [|congruence].
  destruct (String.eqb_spec job_id (JobId m)) as [Heq|_]; [congruence|].
  reflexivity.
Qed.

Lemma poll_loop_receive_error (E : service) (w : Z) (job_id : string)
      (e : exn) (rest : list receipt) (st : state) :
  queue (video st) <> None ->
  fst (poll_loop E w job_id (ReceiveError e :: rest) st) = Raises e.
Proof.
  intros Hq. cbn [poll_loop]. destruct (queue (video st)); [|congruence].
  reflexivity.
Qed.

(** A message for the awaited job: it is deleted, then its status is
    returned. *)
Lemma poll_loop_match (E : service) (w : Z) (job_id : string)
      (m : notification) (rest : list receipt) (st : state) :
  queue (video st) <> None -> JobId m = job_id ->
  poll_loop E w job_id (Message m :: rest) st =
  (invoke E (DeleteMessage m) ;; ret (Status m))
    (with_cloud (with_pending rest
       (with_calls (calls (cloud st) ++ [ReceiveMessages w]) (cloud st))) st).
Proof.
  intros Hq Heq. cbn [poll_loop].
  destruct (queue (video st)); [|congruence].
  rewrite <- Heq, String.eqb_refl. reflexivity.
Qed.

Lemma start_opened (E : service) (mc : QArith_base.Q) (video_path : string)
      (script : list receipt) :
  faults E (StartContentModeration mc) = None ->
  _start_rekognition_job E mc (opened video_path script) =
  (Returns (issued_job_id E), started mc video_path script).
Proof.
  intros Hok. unfold _start_rekognition_job, get_notification_channel, bind, invoke.
  cbn. rewrite Hok. reflexivity.
Qed.

Lemma start_refused (E : service) (mc : QArith_base.Q) (video_path : string)
      (script : list receipt) (e : exn) :
  faults E (StartContentModeration mc) = Some e ->
  fst (_start_rekognition_job E mc (opened video_path script)) = Raises e.
Proof.
  intros Hko. unfold _start_rekognition_job, get_notification_channel, bind, invoke.
  cbn. rewrite Hko. reflexivity.
Qed.

(** C5. While [poll_notification] awaits [job_id], a received message
    whose job identifier differs makes it raise (the program's
    [RuntimeError], the correlation fault) instead of returning a status;
    only receives were invoked, so the offending message is not deleted
    from the queue. *)
Theorem poll_notification_mismatch_raises
        (E : service) (w : Z) (job_id : string) (n : nat) (m : notification)
        (rest : list receipt) (st : state) :
  queue (video st) <> None ->
  pending (cloud st) = repeat NoMessage n ++ Message m :: rest ->
  JobId m <> job_id ->
  exists st',
    poll_notification E w job_id st = (Raises RuntimeError, st') /\
    (forall status, fst (poll_notification E w job_id st) <> Returns status) /\
    deleted (cloud st') = deleted (cloud st) /\
    calls (cloud st') = calls (cloud st) ++ repeat (ReceiveMessages w) (S n) /\
    existsb is_delete_message (repeat (ReceiveMessages w) (S n)) = false /\
    resources (cloud st') = resources (cloud st).
Proof.
  intros Hq Hpending Hne.
  assert (Hrun : poll_notification E w job_id st =
                 (Raises RuntimeError,
                  with_cloud (with_pending rest
                    (with_calls (calls (cloud (polled w n (Message m :: rest) st))
                                 ++ [ReceiveMessages w])
                       (cloud (polled w n (Message m :: rest) st))))
                    (polled w n (Message m :: rest) st))).
  { unfold poll_notification. rewrite Hpending.
    rewrite poll_loop_skip by exact Hq.
    apply poll_loop_mismatch; [|exact Hne].
    rewrite polled_video. exact Hq. }
  eexists. split; [exact Hrun|].
  split; [rewrite Hrun; discriminate|].
  split; [cbn; apply polled_deleted|].
  split.
  - cbn [cloud with_cloud calls with_pending with_calls].
    rewrite polled_calls, <- app_assoc.
    change [ReceiveMessages w] with (repeat (ReceiveMessages w) 1).
    rewrite <- repeat_app, Nat.add_1_r. reflexivity.
  - split.
    + clear. induction n as [|k IH]; [reflexivity|exact IH].
    + etransitivity; [|apply (polled_resources w n (Message m :: rest))].
      reflexivity.
Qed.

Lemma poll_notification_mismatch_raises_witness :
  exists st',
    poll_notification obliging 10 "Y"
      (opened "video.mp4" [NoMessage; Message (succeeded "X")]) =
    (Raises RuntimeError, st') /\
    deleted (cloud st') = [].
Proof.
  destruct (poll_notification_mismatch_raises obliging 10 "Y" 1 (succeeded "X") []
              (opened "video.mp4" [NoMessage; Message (succeeded "X")]))
    as (st' & Hrun & _ & Hdeleted & _).
  - cbn. discriminate.
  - reflexivity.
  - cbn. discriminate.
  - exists st'. split; [exact Hrun|exact Hdeleted].
Defined.

(** ** Failures during the job *)

Lemma fst_Raises {A} (p : outcome A * state) (e : exn) :
  fst p = Raises e -> p = (Raises e, snd p).
Proof. destruct p as [r st]. cbn. intros ->. reflexivity. Qed.

Lemma started_queue (mc : QArith_base.Q) (video_path : string)
      (script : list receipt) (w : Z) (n : nat) (rest : list receipt) :
  queue (video (polled w n rest (started mc video_path script))) <> None.
Proof. rewrite polled_video. cbn. discriminate. Qed.

(** Each injected failure makes the job raise its exception. *)
Lemma do_content_moderation_raises (E : service) (mc : QArith_base.Q) (w : Z)
      (video_path : string) (script : list receipt) (e : exn) :
  injected_failure E mc script e ->
  fst (do_content_moderation E mc w (opened video_path script)) = Raises e.
Proof.
  intros Hinj. unfold do_content_moderation, _do_rekognition_job.
  destruct Hinj as [e Hko | n m rest Hok -> Hne | n e rest Hok ->
                   | n m rest e Hok -> Hid Hko
                   | n m rest e Hok -> Hid Hack Hstatus Hko].
  - rewrite (bind_Raises _ _ _ _ _
               (fst_Raises _ _ (start_refused E mc video_path script e Hko))).
    reflexivity.
  - rewrite (bind_Returns _ _ _ _ _ (start_opened E mc video_path _ Hok)).
    unfold bind at 1, poll_notification.
    change (pending (cloud (started mc video_path ?s))) with s.
    rewrite poll_loop_skip by (cbn; discriminate).
    rewrite poll_loop_mismatch by (apply started_queue || exact Hne).
    reflexivity.
  - rewrite (bind_Returns _ _ _ _ _ (start_opened E mc video_path _ Hok)).
    unfold bind at 1, poll_notification.
    change (pending (cloud (started mc video_path ?s))) with s.
    rewrite poll_loop_skip by (cbn; discriminate).
    rewrite (fst_Raises _ _ (poll_loop_receive_error E w _ e rest _
                               (started_queue mc video_path _ w n _))).
    reflexivity.
  - rewrite (bind_Returns _ _ _ _ _ (start_opened E mc video_path _ Hok)).
    unfold bind at 1, poll_notification.
    change (pending (cloud (started mc video_path ?s))) with s.
    rewrite poll_loop_skip by (cbn; discriminate).
    rewrite poll_loop_match by (apply started_queue || exact Hid).
    unfold bind, invoke. rewrite Hko. reflexivity.
  - rewrite (bind_Returns _ _ _ _ _ (start_opened E mc video_path _ Hok)).
    unfold bind at 1, poll_notification.
    change (pending (cloud (started mc video_path ?s))) with s.
    rewrite poll_loop_skip by (cbn; discriminate).
    rewrite poll_loop_match by (apply started_queue || exact Hid).
    unfold _get_rekognition_job_results, bind, invoke, ret.
    rewrite Hack, Hstatus. cbn [String.eqb Ascii.eqb Bool.eqb].
    rewrite Hko. reflexivity.
Qed.

Lemma job_call_not_teardown (cs : list call) :
  forallb is_job_call cs = true -> existsb is_teardown cs = false.
Proof.
  induction cs as [|c cs IH]; [reflexivity|].
  cbn [forallb existsb]. intros H. apply andb_prop in H. destruct H as [Hc Hcs].
  rewrite (IH Hcs). destruct c; try discriminate Hc; reflexivity.
Qed.

(** C4, as the program has it.  When a failure is injected at the
    job-start, await-completion or result-fetch step, its exception
    leaves [content_moderation] at once: no operation of the teardown is
    invoked, and the topic, the queue and the authorization grant are
    all still there when the session ends. *)
Theorem failure_leaves_channel_behind
        (E : service) (mc : QArith_base.Q) (w : Z) (video_path : string)
        (script : list receipt) (e : exn) :
  accepts E (provision_calls video_path) = true ->
  injected_failure E mc script e ->
  exists st',
    content_moderation E mc w video_path (entry script) = (Raises e, st') /\
    existsb is_teardown (calls (cloud st')) = false /\
    channel_intact (cloud st') = true /\
    topic_live (cloud st') = true /\
    queue_live (cloud st') = true /\
    role_live (cloud st') = true.
Proof.
  intros Hacc Hinj.
  pose proof (do_content_moderation_raises E mc w video_path script e Hinj) as Hdo.
  apply fst_Raises in Hdo.
  pose proof (job_do_content_moderation E mc w (opened video_path script)) as Hjob.
  set (st' := snd (do_content_moderation E mc w (opened video_path script))) in *.
  exists st'. split.
  - unfold content_moderation.
    rewrite (bind_Returns _ _ _ _ _ (provision_opened E video_path script Hacc)).
    apply bind_Raises. exact Hdo.
  - destruct Hjob as (_ & Hres & cs & Hcalls & Hcs).
    unfold resources in Hres. cbn in Hres.
    injection Hres as Ht Hqu Hr Hp Ha Hb Ho.
    unfold channel_intact. rewrite Ht, Hqu, Hr, Ha, Hcalls.
    rewrite existsb_app, (job_call_not_teardown cs Hcs).
    repeat split; reflexivity.
Qed.

Lemma failure_leaves_channel_behind_witness :
  exists st',
    content_moderation start_refusing default_min_confidence
      default_poll_wait_time "video.mp4" (entry []) =
    (Raises (ClientError "StartContentModeration"), st') /\
    topic_live (cloud st') = true /\
    queue_live (cloud st') = true /\
    role_live (cloud st') = true.
Proof.
  destruct (failure_leaves_channel_behind start_refusing default_min_confidence
              default_poll_wait_time "video.mp4" []
              (ClientError "StartContentModeration"))
    as (st' & Hrun & _ & _ & Ht & Hq & Hr).
  - reflexivity.
  - apply fail_start. reflexivity.
  - exists st'. repeat split; assumption.
Defined.

(** C4, as stated, fails: with [start_content_moderation] refused the
    session ends with the topic, the queue and the role still there, and
    none of the operations of the teardown was invoked. *)
Lemma teardown_skipped_counterexample :
  let run := content_moderation start_refusing default_min_confidence
               default_poll_wait_time "video.mp4" (entry []) in
  fst run = Raises (ClientError "StartContentModeration") /\
  existsb is_teardown (calls (cloud (snd run))) = false /\
  channel_absent (cloud (snd run)) = false /\
  topic_live (cloud (snd run)) = true /\
  queue_live (cloud (snd run)) = true /\
  role_live (cloud (snd run)) = true.
Proof. vm_compute. repeat split. Qed.

(** ** Deleting the notification channel *)

Lemma attempted_app (E : service) (l1 l2 : list call) :
  attempted E (l1 ++ l2) =
  if accepts E l1 then l1 ++ attempted E l2 else attempted E l1.
Proof.
  induction l1 as [|c l1 IH]; [reflexivity|].
  cbn [app attempted accepts forallb]. fold (accepts E l1).
  destruct (refused E c); cbn [negb andb]; [reflexivity|].
  rewrite IH. destruct (accepts E l1); reflexivity.
Qed.

Lemma first_fault_app (E : service) (l1 l2 : list call) :
  first_fault E (l1 ++ l2) =
  match first_fault E l1 with
  | Some e => Some e
  | None => first_fault E l2
  end.
Proof.
  induction l1 as [|c l1 IH]; [reflexivity|].
  cbn [app first_fault]. destruct (faults E c); [reflexivity|exact IH].
Qed.

Lemma first_fault_accepts (E : service) (l : list call) :
  first_fault E l = None <-> accepts E l = true.
Proof.
  induction l as [|c l IH]; [split; reflexivity|].
  cbn [first_fault accepts forallb]. fold (accepts E l). unfold refused.
  destruct (faults E c); cbn [negb andb]; [split; discriminate|exact IH].
Qed.

Lemma invoke_refused (E : service) (c : call) (st : state) (e : exn) :
  faults E c = Some e ->
  invoke E c st =
  (Raises e, with_cloud (with_calls (calls (cloud st) ++ [c]) (cloud st)) st).
Proof. unfold invoke. intros ->. reflexivity. Qed.

Lemma invoke_accepted (E : service) (c : call) (st : state) :
  faults E c = None ->
  invoke E c st =
  (Returns tt,
   with_cloud (effect c (with_calls (calls (cloud st) ++ [c]) (cloud st))) st).
Proof. unfold invoke. intros ->. reflexivity. Qed.

Lemma attempted_accepted (E : service) (l : list call) :
  accepts E l = true -> attempted E l = l.
Proof.
  induction l as [|c l IH]; [reflexivity|].
  cbn [accepts forallb attempted]. fold (accepts E l).
  destruct (refused E c); cbn [negb andb]; [discriminate|].
  intros Hacc. rewrite (IH Hacc). reflexivity.
Qed.

(** The loop of lines 144-146 stops at the first refusal. *)
Lemma detach_loop (E : service) (ps : list string) :
  forall st,
    let run := for_each ps (fun policy =>
                 invoke E (DetachRolePolicy policy) ;;
                 invoke E (DeletePolicy policy)) st in
    let plan := flat_map (fun policy =>
                  [DetachRolePolicy policy; DeletePolicy policy]) ps in
    fst run = match first_fault E plan with
              | Some e => Raises e
              | None => Returns tt
              end /\
    calls (cloud (snd run)) = calls (cloud st) ++ attempted E plan /\
    video (snd run) = video st /\
    (topic_live (cloud (snd run)), queue_live (cloud (snd run)),
     role_live (cloud (snd run))) =
    (topic_live (cloud st), queue_live (cloud st), role_live (cloud st)).
Proof.
  induction ps as [|p ps IH]; intros st; cbv zeta.
  - cbn. rewrite app_nil_r. repeat split.
  - cbn [for_each flat_map app attempted first_fault]. unfold refused.
    destruct (faults E (DetachRolePolicy p)) as [e|] eqn:Hdetach.
    { rewrite (bind_Raises _ _ _ _ _
                 (bind_Raises _ _ _ _ _ (invoke_refused E _ st e Hdetach))).
      cbn. repeat split. }
    destruct (faults E (DeletePolicy p)) as [e|] eqn:Hdelete.
    { rewrite (bind_Raises _ _ _ _ _
                 (eq_trans (bind_Returns _ _ _ _ _ (invoke_accepted E _ st Hdetach))
                           (invoke_refused E _ _ e Hdelete))).
      cbn. rewrite <- app_assoc. repeat split. }
    rewrite (bind_Returns _ _ _ _ _
               (eq_trans (bind_Returns _ _ _ _ _ (invoke_accepted E _ st Hdetach))
                         (invoke_accepted E _ _ Hdelete))).
    match goal with
    | |- context [for_each ps _ ?s] => specialize (IH s); cbv zeta in IH
    end.
    destruct IH as (Hfst & Hcalls & Hvideo & Hlive).
    split; [exact Hfst|]. split; [|split; [exact Hvideo|exact Hlive]].
    rewrite Hcalls. cbn. rewrite <- !app_assoc. reflexivity.
Qed.

Ltac returns_by_computation :=
  match goal with
  | |- context [bind ?m ?k ?st] =>
    match m with
    | field _ => rewrite (bind_Returns m k st st _ eq_refl)
    | deref (Some ?x) => rewrite (bind_Returns m k st st x eq_refl)
    | assign_role _ => rewrite (bind_Returns m k st _ tt eq_refl)
    | assign_queue _ => rewrite (bind_Returns m k st _ tt eq_refl)
    | assign_topic _ => rewrite (bind_Returns m k st _ tt eq_refl)
    end
  end.

Ltac invoke_accepted_by H :=
  rewrite (bind_Returns _ _ _ _ _ (invoke_accepted _ _ _ H)).

Ltac invoke_refused_by H :=
  rewrite (bind_Raises _ _ _ _ _ (invoke_refused _ _ _ _ H)).

(** What [delete_notification_channel] does on an open channel, in terms
    of its plan. *)
Lemma delete_notification_channel_plan
        (E : service) (st : state) :
  is_open (video st) ->
  let plan := close_plan (attached (cloud st)) in
  let run := delete_notification_channel E st in
  fst run = match first_fault E plan with
            | Some e => Raises e
            | None => Returns tt
            end /\
  calls (cloud (snd run)) = calls (cloud st) ++ attempted E plan /\
  (first_fault E plan = None ->
   role_live (cloud (snd run)) = false /\
   queue_live (cloud (snd run)) = false /\
   topic_live (cloud (snd run)) = false /\
   is_closed (video (snd run))).
Proof.
  intros (Htopic & Hqueue & Hrole). cbv zeta.
  destruct (role (video st)) as [r|] eqn:Hr; [|congruence].
  destruct (queue (video st)) as [q|] eqn:Hq; [|congruence].
  destruct (topic (video st)) as [t|] eqn:Ht; [|congruence].
  clear Htopic Hqueue Hrole.
  unfold delete_notification_channel, close_plan.
  returns_by_computation. rewrite Hr. returns_by_computation.
  cbn [attempted first_fault]. unfold refused.
  destruct (faults E ListAttachedRolePolicies) as [e|] eqn:Hlist.
  { invoke_refused_by Hlist. cbn. repeat split; discriminate. }
  invoke_accepted_by Hlist.
  match goal with
  | |- context [bind ?m ?k ?s] => rewrite (bind_Returns m k s s _ eq_refl)
  end.
  cbn [cloud with_cloud attached effect with_calls].
  rewrite first_fault_app, attempted_app.
  match goal with
  | |- context [bind (for_each _ _) _ ?s] =>
    pose proof (detach_loop E (attached (cloud st)) s) as Hloop;
    cbv zeta in Hloop; destruct Hloop as (Hfst & Hcalls & Hvideo & Hlive);
    destruct (for_each (attached (cloud st))
                (fun policy => invoke E (DetachRolePolicy policy) ;;
                               invoke E (DeletePolicy policy)) s)
      as [r1 st1] eqn:Hrun
  end.
  cbn [fst snd] in Hfst, Hcalls, Hvideo, Hlive.
  cbn [cloud with_cloud calls with_calls video] in Hcalls, Hvideo.
  destruct (first_fault E (flat_map _ (attached (cloud st)))) as [e|] eqn:Hflat.
  { subst r1. rewrite (bind_Raises _ _ _ _ _ Hrun).
    assert (Hacc : accepts E (flat_map (fun policy =>
                     [DetachRolePolicy policy; DeletePolicy policy])
                     (attached (cloud st))) = false).
    { destruct (accepts E _) eqn:Hacc; [|reflexivity].
      apply first_fault_accepts in Hacc. congruence. }
    rewrite Hacc. cbn [fst snd]. rewrite Hcalls, <- app_assoc.
    repeat split; discriminate. }
  subst r1. rewrite (bind_Returns _ _ _ _ _ Hrun).
  apply first_fault_accepts in Hflat.
  rewrite (attempted_accepted E _ Hflat) in Hcalls. rewrite Hflat.
  returns_by_computation. rewrite Hvideo. cbn [video with_cloud].
  rewrite Hr. returns_by_computation.
  cbn [attempted first_fault]. unfold refused.
  destruct (faults E DeleteRole) as [e|] eqn:Hdrole.
  { invoke_refused_by Hdrole. cbn [fst snd cloud with_cloud calls with_calls].
    rewrite Hcalls, <- !app_assoc. repeat split; discriminate. }
  invoke_accepted_by Hdrole. returns_by_computation. returns_by_computation.
  cbn [video with_video with_cloud queue]. rewrite Hvideo.
  cbn [video with_cloud]. rewrite Hq. returns_by_computation.
  destruct (faults E DeleteQueue) as [e|] eqn:Hdqueue.
  { invoke_refused_by Hdqueue.
    cbn [fst snd cloud with_cloud with_video calls with_calls effect with_role_live].
    rewrite Hcalls, <- !app_assoc. repeat split; discriminate. }
  invoke_accepted_by Hdqueue. returns_by_computation. returns_by_computation.
  cbn [video with_video with_cloud topic]. rewrite Ht. returns_by_computation.
  destruct (faults E DeleteTopic) as [e|] eqn:Hdtopic.
  { invoke_refused_by Hdtopic.
    cbn [fst snd cloud with_cloud with_video calls with_calls effect
         with_role_live with_queue_live].
    rewrite Hcalls, <- !app_assoc. repeat split; discriminate. }
  invoke_accepted_by Hdtopic.
  cbn. rewrite Hcalls, <- !app_assoc. repeat split.
Qed.

(** C7, as the program has it.  On an open channel
    [delete_notification_channel] goes through the authorization grant
    (the attached policies, then the role), then the queue, then the
    topic; the first operation that is refused raises at once and
    nothing after it is attempted.  When nothing is refused the role,
    the queue and the topic are gone and the three handles are [None]. *)
Theorem delete_notification_channel_stops_at_first_refusal
        (E : service) (st : state) :
  is_open (video st) ->
  let plan := close_plan (attached (cloud st)) in
  let run := delete_notification_channel E st in
  fst run = match first_fault E plan with
            | Some e => Raises e
            | None => Returns tt
            end /\
  calls (cloud (snd run)) = calls (cloud st) ++ attempted E plan /\
  (first_fault E plan = None ->
   role_live (cloud (snd run)) = false /\
   queue_live (cloud (snd run)) = false /\
   topic_live (cloud (snd run)) = false /\
   is_closed (video (snd run))).
Proof. exact (delete_notification_channel_plan E st). Qed.

Lemma delete_notification_channel_stops_at_first_refusal_witness :
  let run := delete_notification_channel role_keeping (opened "video.mp4" []) in
  fst run = Raises (ClientError "DeleteRole") /\
  calls (cloud (snd run)) =
    provision_calls "video.mp4" ++
    [ ListAttachedRolePolicies; DetachRolePolicy "test-video-rekognition";
      DeletePolicy "test-video-rekognition"; DeleteRole ].
Proof.
  destruct (delete_notification_channel_stops_at_first_refusal role_keeping
              (opened "video.mp4" []))
    as (Hfst & Hcalls & _).
  - repeat split; discriminate.
  - split; [exact Hfst|exact Hcalls].
Defined.

(** C7, as stated, fails: when deleting the role is refused, the
    exception leaves [delete_notification_channel] at once; deleting the
    queue and the topic is not attempted, and both are still there. *)
Lemma later_deletions_skipped_counterexample :
  let run := delete_notification_channel role_keeping (opened "video.mp4" []) in
  fst run = Raises (ClientError "DeleteRole") /\
  existsb is_later_deletion (calls (cloud (snd run))) = false /\
  queue_live (cloud (snd run)) = true /\
  topic_live (cloud (snd run)) = true.
Proof. vm_compute. repeat split. Qed.

(** C6, as the program has it.  On a channel that is already closed
    (its handles are [None]) [delete_notification_channel] raises
    [AttributeError] at its first line; it invokes nothing and changes
    nothing. *)
Theorem delete_notification_channel_closed_raises (E : service) (st : state) :
  is_closed (video st) ->
  delete_notification_channel E st = (Raises AttributeError, st).
Proof.
  intros (_ & _ & Hrole). unfold delete_notification_channel.
  returns_by_computation. rewrite Hrole. reflexivity.
Qed.

Lemma delete_notification_channel_closed_raises_witness :
  let closed := snd (delete_notification_channel obliging (opened "video.mp4" [])) in
  delete_notification_channel obliging closed = (Raises AttributeError, closed).
Proof.
  apply delete_notification_channel_closed_raises.
  repeat split.
Defined.

(** C6, as stated, fails: a first [delete_notification_channel] returns
    and leaves the channel closed; the second one raises. *)
Lemma close_twice_counterexample :
  let first := delete_notification_channel obliging (opened "video.mp4" []) in
  let second := delete_notification_channel obliging (snd first) in
  fst first = Returns tt /\
  channel_absent (cloud (snd first)) = true /\
  role (video (snd first)) = None /\
  queue (video (snd first)) = None /\
  topic (video (snd first)) = None /\
  fst second = Raises AttributeError.
Proof. vm_compute. repeat split. Qed.

(** ** The whole session *)

Lemma bind_inv {A B} (m : M A) (k : A -> M B) (st st' : state) (b : B) :
  bind m k st = (Returns b, st') ->
  exists a st1, m st = (Returns a, st1) /\ k a st1 = (Returns b, st').
Proof.
  unfold bind. destruct (m st) as [[a|e|] st1]; try discriminate.
  intros Hk. exists a, st1. split; [reflexivity|exact Hk].
Qed.

(** A session that returns hands back the dictionary of a tally. *)
Lemma content_moderation_returns_pred_values
      (E : service) (mc : QArith_base.Q) (w : Z) (video_path : string)
      (st st' : state) (d : list (string * pyval)) :
  content_moderation E mc w video_path st = (Returns d, st') ->
  exists ds, d = pred_values (classify ds).
Proof.
  unfold content_moderation. intros Hrun.
  apply bind_inv in Hrun. destruct Hrun as (_ & st1 & _ & Hrun).
  apply bind_inv in Hrun. destruct Hrun as (get_labels & st2 & _ & Hrun).
  apply bind_inv in Hrun. destruct Hrun as (_ & st3 & _ & Hrun).
  apply bind_inv in Hrun. destruct Hrun as (ds & st4 & _ & Hrun).
  exists ds. unfold ret in Hrun. congruence.
Qed.

Lemma deployed_keys_nodup : NoDup (category_keys deployed ++ ["label"]).
Proof.
  cbn [category_keys deployed app].
  repeat (constructor; [cbn [In]; intuition discriminate|]).
  constructor.
Qed.

Lemma pred_values_shape (ds : list detection) :
  let d := pred_values (classify ds) in
  map fst d = category_keys deployed ++ ["label"] /\
  (dict_get "label" d = Some (PyStr "allowed") \/
   dict_get "label" d = Some (PyStr "rejected")) /\
  dict_get "verdict" d = None /\
  (forall key, In key (category_keys deployed) ->
     exists n, dict_get key d = Some (PyInt n) /\ 0 <= n).
Proof.
  cbv zeta. split; [reflexivity|]. split; [|split].
  - change (dict_get "label" (pred_values (classify ds)))
      with (Some (PyStr (verdict (classify ds)))).
    unfold verdict. destruct (labels_count (classify ds) <? 1); auto.
  - reflexivity.
  - intros key Hin. cbn [category_keys deployed In] in Hin.
    repeat (destruct Hin as [<-|Hin];
            [eexists; split;
             [reflexivity|rewrite tally_labels_hits; apply hits_nonneg]|]).
    contradiction.
Qed.

(** C10. The dictionary a session returns holds the 35 category keys,
    each with a non-negative count, followed by one more key named
    [label] (there is no key [verdict]) whose value is the string
    ['allowed'] or ['rejected']. *)
Theorem returned_dictionary_shape
        (E : service) (mc : QArith_base.Q) (w : Z) (video_path : string)
        (script : list receipt) (d : list (string * pyval)) (st' : state) :
  content_moderation E mc w video_path (entry script) = (Returns d, st') ->
  map fst d = category_keys deployed ++ ["label"] /\
  List.length (category_keys deployed) = 35%nat /\
  List.length d = 36%nat /\
  NoDup (map fst d) /\
  (dict_get "label" d = Some (PyStr "allowed") \/
   dict_get "label" d = Some (PyStr "rejected")) /\
  dict_get "verdict" d = None /\
  (forall key, In key (category_keys deployed) ->
     exists n, dict_get key d = Some (PyInt n) /\ 0 <= n).
Proof.
  intros Hrun.
  apply content_moderation_returns_pred_values in Hrun.
  destruct Hrun as (ds & ->).
  destruct (pred_values_shape ds) as (Hkeys & Hlabel & Hverdict & Hcounts).
  split; [exact Hkeys|]. split; [reflexivity|]. split; [reflexivity|].
  split; [rewrite Hkeys; apply deployed_keys_nodup|].
  split; [exact Hlabel|]. split; [exact Hverdict|exact Hcounts].
Qed.

Lemma returned_dictionary_shape_witness :
  exists d st',
    content_moderation obliging default_min_confidence default_poll_wait_time
      "video.mp4" (entry [NoMessage; Message (succeeded "job-1")]) =
    (Returns d, st') /\
    map fst d = category_keys deployed ++ ["label"] /\
    dict_get "label" d = Some (PyStr "rejected").
Proof.
  pose (run := content_moderation obliging default_min_confidence
                 default_poll_wait_time "video.mp4"
                 (entry [NoMessage; Message (succeeded "job-1")])).
  assert (Hrun : run = (Returns (pred_values (classify sample_detections)),
                        snd run))
    by (vm_compute; reflexivity).
  exists (pred_values (classify sample_detections)), (snd run).
  split; [exact Hrun|]. split.
  - exact (proj1 (returned_dictionary_shape _ _ _ _ _ _ _ Hrun)).
  - reflexivity.
Defined.

(** C3, on the program.  With the completion status [FAILED] the results
    are never fetched and the empty list of line 244 is what the job
    hands back; the channel is then deleted, but line 365 indexes that
    list by a string: the session ends with [TypeError] and returns no
    tally and no verdict. *)
Theorem failed_status_ends_in_TypeError :
  let run := content_moderation obliging default_min_confidence
               default_poll_wait_time "video.mp4"
               (entry [Message (failed "job-1")]) in
  fst (do_content_moderation obliging default_min_confidence
         default_poll_wait_time (opened "video.mp4" [Message (failed "job-1")]))
    = Returns EmptyList /\
  existsb is_fetch (calls (cloud (snd run))) = false /\
  channel_absent (cloud (snd run)) = true /\
  fst run = Raises TypeError.
Proof. vm_compute. repeat split. Qed.

(** Whenever the job hands back the empty list, the session does not
    return. *)
Lemma empty_list_never_returns
      (E : service) (mc : QArith_base.Q) (w : Z) (video_path : string)
      (st st1 st2 : state) :
  provision E video_path st = (Returns tt, st1) ->
  do_content_moderation E mc w st1 = (Returns EmptyList, st2) ->
  forall d, fst (content_moderation E mc w video_path st) <> Returns d.
Proof.
  intros Hprov Hjob d. unfold content_moderation.
  rewrite (bind_Returns _ _ _ _ _ Hprov), (bind_Returns _ _ _ _ _ Hjob).
  unfold bind. destruct (cleanup E st2) as [[[]|e|] st3]; cbn; discriminate.
Qed.

(** A status other than ['SUCCEEDED'] makes the job hand back the empty
    list without fetching. *)
Lemma other_status_skips_fetch
      (E : service) (mc : QArith_base.Q) (w : Z) (video_path : string)
      (n : nat) (m : notification) (rest : list receipt) :
  faults E (StartContentModeration mc) = None ->
  faults E (DeleteMessage m) = None ->
  JobId m = issued_job_id E ->
  Status m <> "SUCCEEDED" ->
  let run := do_content_moderation E mc w
               (opened video_path (repeat NoMessage n ++ Message m :: rest)) in
  fst run = Returns EmptyList /\
  existsb is_fetch (calls (cloud (snd run))) = false.
Proof.
  intros Hstart Hack Hid Hstatus. cbv zeta.
  unfold do_content_moderation, _do_rekognition_job.
  rewrite (bind_Returns _ _ _ _ _ (start_opened E mc video_path _ Hstart)).
  assert (Hpoll : poll_notification E w (issued_job_id E)
                    (started mc video_path (repeat NoMessage n ++ Message m :: rest))
                  = (Returns (Status m),
                     with_cloud
                       (effect (DeleteMessage m)
                          (with_calls
                             ((calls (cloud (polled w n (Message m :: rest)
                                  (started mc video_path
                                     (repeat NoMessage n ++ Message m :: rest))))
                               ++ [ReceiveMessages w]) ++ [DeleteMessage m])
                             (with_pending rest
                                (with_calls
                                   (calls (cloud (polled w n (Message m :: rest)
                                      (started mc video_path
                                         (repeat NoMessage n ++ Message m :: rest))))
                                    ++ [ReceiveMessages w])
                                   (cloud (polled w n (Message m :: rest)
                                      (started mc video_path
                                         (repeat NoMessage n ++ Message m :: rest))))))))
                       (polled w n (Message m :: rest)
                          (started mc video_path
                             (repeat NoMessage n ++ Message m :: rest))))).
  { unfold poll_notification.
    change (pending (cloud (started mc video_path ?s))) with s.
    rewrite poll_loop_skip by (cbn; discriminate).
    rewrite poll_loop_match by (apply started_queue || exact Hid).
    rewrite (bind_Returns _ _ _ _ _ (invoke_accepted E _ _ Hack)).
    reflexivity. }
  rewrite (bind_Returns _ _ _ _ _ Hpoll).
  destruct (String.eqb_spec (Status m) "SUCCEEDED") as [Heq|_]; [contradiction|].
  split; [reflexivity|].
  cbn [snd ret cloud with_cloud calls effect with_deleted with_calls].
  rewrite polled_calls. cbn [calls cloud started with_cloud with_calls].
  rewrite !existsb_app. cbn [existsb is_fetch provision_calls orb].
  replace (existsb is_fetch (repeat (ReceiveMessages w) n)) with false;
    [reflexivity|].
  clear. induction n as [|k IH]; [reflexivity|exact IH].
Qed.

(** ** The session that goes through *)

(** When the awaited message comes in with status ['SUCCEEDED'] and the
    job's operations are carried out, the job hands back the response of
    [get_content_moderation]. *)
Lemma do_content_moderation_returns
      (E : service) (mc : QArith_base.Q) (w : Z) (video_path : string)
      (n : nat) (m : notification) (rest : list receipt) :
  faults E (StartContentModeration mc) = None ->
  faults E (DeleteMessage m) = None ->
  faults E (GetContentModeration (issued_job_id E)) = None ->
  JobId m = issued_job_id E ->
  Status m = "SUCCEEDED" ->
  fst (do_content_moderation E mc w
         (opened video_path (repeat NoMessage n ++ Message m :: rest)))
  = Returns (Response (job_results E)).
Proof.
  intros Hstart Hack Hget Hid Hstatus.
  unfold do_content_moderation, _do_rekognition_job.
  rewrite (bind_Returns _ _ _ _ _ (start_opened E mc video_path _ Hstart)).
  unfold bind at 1, poll_notification.
  change (pending (cloud (started mc video_path ?s))) with s.
  rewrite poll_loop_skip by (cbn; discriminate).
  rewrite poll_loop_match by (apply started_queue || exact Hid).
  unfold _get_rekognition_job_results, bind, invoke, ret.
  rewrite Hack, Hstatus. cbn [String.eqb Ascii.eqb Bool.eqb].
  rewrite Hget. reflexivity.
Qed.

Lemma fst_Returns {A} (p : outcome A * state) (a : A) :
  fst p = Returns a -> p = (Returns a, snd p).
Proof. destruct p as [r st]. cbn. intros ->. reflexivity. Qed.

(** When nothing is refused and the awaited message reports
    ['SUCCEEDED'], the session returns the dictionary of the fetched
    detections, and the topic, the queue, the role and the bucket are
    gone. *)
Lemma content_moderation_returns
      (E : service) (mc : QArith_base.Q) (w : Z) (video_path : string)
      (n : nat) (m : notification) (rest : list receipt) :
  accepts E (provision_calls video_path) = true ->
  accepts E [ StartContentModeration mc; DeleteMessage m;
              GetContentModeration (issued_job_id E) ] = true ->
  accepts E (close_plan ["test-video-rekognition"]) = true ->
  accepts E [ DeleteObjects; DeleteBucket ] = true ->
  JobId m = issued_job_id E ->
  Status m = "SUCCEEDED" ->
  exists st',
    content_moderation E mc w video_path
      (entry (repeat NoMessage n ++ Message m :: rest)) =
    (Returns (pred_values (classify (ModerationLabels (job_results E)))), st') /\
    topic_live (cloud st') = false /\
    queue_live (cloud st') = false /\
    role_live (cloud st') = false /\
    bucket_live (cloud st') = false.
Proof.
  intros Hprov Hjob Hclose Hbucket Hid Hstatus.
  pose proof (accepts_in E _ Hjob) as Hj.
  pose proof (accepts_in E _ Hbucket) as Hb.
  set (script := repeat NoMessage n ++ Message m :: rest).
  pose proof (do_content_moderation_returns E mc w video_path n m rest
                (Hj _ (or_introl eq_refl))
                (Hj _ (or_intror (or_introl eq_refl)))
                (Hj _ (or_intror (or_intror (or_introl eq_refl))))
                Hid Hstatus) as Hdo.
  fold script in Hdo. apply fst_Returns in Hdo.
  pose proof (job_do_content_moderation E mc w (opened video_path script))
    as (Hvideo & Hres & _).
  set (st2 := snd (do_content_moderation E mc w (opened video_path script))) in *.
  unfold resources in Hres. cbn in Hres.
  injection Hres as _ _ _ _ Hattached _ _.
  assert (Hopen : is_open (video st2)).
  { rewrite Hvideo. repeat split; discriminate. }
  pose proof (delete_notification_channel_plan E st2 Hopen) as Hdel.
  cbv zeta in Hdel. rewrite Hattached in Hdel.
  apply first_fault_accepts in Hclose.
  destruct Hdel as (Hfst & _ & Hgone). rewrite Hclose in Hfst.
  apply fst_Returns in Hfst.
  destruct (Hgone Hclose) as (Hrole & Hqueue & Htopic & _).
  set (st3 := snd (delete_notification_channel E st2)) in *.
  eexists. split.
  - unfold content_moderation, cleanup.
    rewrite (bind_Returns _ _ _ _ _ (provision_opened E video_path script Hprov)).
    rewrite (bind_Returns _ _ _ _ _ Hdo).
    rewrite (bind_Returns _ _ _ _ _
               (eq_trans (bind_Returns _ _ _ _ _ Hfst)
                  (eq_trans (bind_Returns _ _ _ _ _
                               (invoke_accepted E DeleteObjects st3
                                  (Hb _ (or_introl eq_refl))))
                            (invoke_accepted E DeleteBucket _
                               (Hb _ (or_intror (or_introl eq_refl))))))).
    reflexivity.
  - cbn. repeat split; assumption.
Qed.

(* ===================================================================== *)
(** * Part III: further properties of the program *)
(* ===================================================================== *)

(** ** The tally and the verdict together *)

Lemma mapped_counter_of (d : detection) :
  mapped d = match counter_of (Name (ModerationLabel d)) with
             | Some _ => true
             | None => false
             end.
Proof.
  unfold mapped, counter_of, category_of.
  cbv [deployed label_map dict_get].
  generalize (Name (ModerationLabel d)); intro label.
  repeat (destruct (label == _); [reflexivity|]).
  reflexivity.
Qed.

Lemma labels_count_incr (x : counter) (s : counters) :
  labels_count (new_row (incr x s)) = labels_count (new_row s) + 1.
Proof.
  unfold labels_count, new_row. cbn [map snd fold_right].
  rewrite !incr_apply. destruct x; cbn [counter_beq]; lia.
Qed.

Lemma labels_count_fold (ds : list detection) :
  forall s, labels_count (new_row (fold_left tally_step ds s)) =
            labels_count (new_row s) + Z.of_nat (List.length (filter mapped ds)).
Proof.
  induction ds as [|d ds IH]; intros s; cbn [fold_left filter].
  - cbn [List.length]. lia.
  - rewrite IH, tally_step_counter_of, mapped_counter_of.
    destruct (counter_of (Name (ModerationLabel d))) as [x|].
    + rewrite labels_count_incr. cbn [List.length]. lia.
    + lia.
Qed.

(** X1. The sum of the tally is the number of detections whose label has
    a branch in the chain: each such detection is counted once, in one
    category, and the others are not counted; so the sum never exceeds
    the number of detections. *)
Theorem labels_count_counts_mapped (ds : list detection) :
  labels_count (classify ds) = Z.of_nat (List.length (filter mapped ds)) /\
  0 <= labels_count (classify ds) <= Z.of_nat (List.length ds).
Proof.
  assert (Hsum : labels_count (classify ds)
                 = Z.of_nat (List.length (filter mapped ds))).
  { unfold classify, tally_labels. rewrite labels_count_fold. reflexivity. }
  split; [exact Hsum|]. rewrite Hsum.
  pose proof (filter_length_le mapped ds). lia.
Qed.

Lemma filter_nil_iff {A} (f : A -> bool) (l : list A) :
  filter f l = [] <-> forall x, In x l -> f x = false.
Proof.
  induction l as [|a l IH]; cbn [filter].
  - split; [intros _ x []|reflexivity].
  - destruct (f a) eqn:Hfa.
    + split; [discriminate|]. intros H.
      specialize (H a (or_introl eq_refl)). congruence.
    + rewrite IH. split.
      * intros H x [<-|Hx]; [exact Hfa|apply H; exact Hx].
      * intros H x Hx. apply H. right. exact Hx.
Qed.

(** X2. The verdict of a tally is ['allowed'] exactly when no detection
    carries a label of the chain, and ['rejected'] exactly when at least
    one does: labels the chain does not know never reject a video, and
    one known label is enough to reject it. *)
Theorem verdict_of_classify (ds : list detection) :
  (verdict (classify ds) = "allowed" <->
   forall d, In d ds -> mapped d = false) /\
  (verdict (classify ds) = "rejected" <->
   exists d, In d ds /\ mapped d = true).
Proof.
  assert (Hsum : labels_count (classify ds)
                 = Z.of_nat (List.length (filter mapped ds))).
  { unfold classify, tally_labels. rewrite labels_count_fold. reflexivity. }
  unfold verdict. rewrite Hsum.
  destruct (filter mapped ds) as [|d0 l] eqn:Hfilter.
  - pose proof (proj1 (filter_nil_iff mapped ds) Hfilter) as Hnone.
    cbn. split.
    + split; [intros _; exact Hnone|reflexivity].
    + split; [discriminate|].
      intros (d & Hin & Hd). rewrite (Hnone d Hin) in Hd. discriminate.
  - assert (Hd0 : In d0 ds /\ mapped d0 = true).
    { apply filter_In. rewrite Hfilter. left. reflexivity. }
    destruct (Z.ltb_spec (Z.of_nat (List.length (d0 :: l))) 1) as [Hlt|_];
      [cbn [List.length] in Hlt; lia|].
    split.
    + split; [discriminate|].
      intros Hnone. destruct Hd0 as [Hin Hd]. rewrite (Hnone d0 Hin) in Hd.
      discriminate.
    + split; [intros _; exists d0; exact Hd0|reflexivity].
Qed.

(** X3. The tally of two sequences put one after the other is the sum,
    key by key, of their tallies; so the whole is rejected exactly when
    one of the two parts is. *)
Theorem classify_app (ds1 ds2 : list detection) :
  classify (ds1 ++ ds2) = add_rows (classify ds1) (classify ds2) /\
  labels_count (classify (ds1 ++ ds2)) =
    labels_count (classify ds1) + labels_count (classify ds2) /\
  (verdict (classify (ds1 ++ ds2)) = "rejected" <->
   verdict (classify ds1) = "rejected" \/ verdict (classify ds2) = "rejected").
Proof.
  assert (Hsum : labels_count (classify (ds1 ++ ds2)) =
                 labels_count (classify ds1) + labels_count (classify ds2)).
  { unfold classify, tally_labels. rewrite !labels_count_fold.
    rewrite filter_app, length_app. cbn. lia. }
  split; [|split; [exact Hsum|]].
  - rewrite !classify_refines_spec. unfold classify_spec, add_rows.
    cbn [category_keys deployed map combine fst snd].
    rewrite !hits_app. reflexivity.
  - pose proof (labels_count_nonneg _ (classify_nonnegative ds1)) as H1.
    pose proof (labels_count_nonneg _ (classify_nonnegative ds2)) as H2.
    unfold verdict. rewrite Hsum.
    destruct (Z.ltb_spec (labels_count (classify ds1)
                          + labels_count (classify ds2)) 1);
      destruct (Z.ltb_spec (labels_count (classify ds1)) 1);
      destruct (Z.ltb_spec (labels_count (classify ds2)) 1);
      try lia; split; intros Hv; try discriminate Hv; auto;
      destruct Hv as [Hv|Hv]; discriminate Hv.
Qed.

Lemma tally_step_same_name (s : counters) (d d' : detection) :
  Name (ModerationLabel d) = Name (ModerationLabel d') ->
  tally_step s d = tally_step s d'.
Proof. unfold tally_step. intros ->. reflexivity. Qed.

(** X4. The tally depends on the label names only: two sequences whose
    detections carry the same names in the same order get the same
    tally, whatever their confidences, timestamps and parent names.  In
    particular the program applies no confidence threshold of its own to
    the detections it is handed. *)
Theorem classify_reads_names_only (ds ds' : list detection) :
  label_names ds = label_names ds' -> classify ds = classify ds'.
Proof.
  unfold classify, tally_labels. generalize zeroed.
  revert ds'. induction ds as [|d ds IH]; intros [|d' ds'] s Hnames;
    try discriminate Hnames; [reflexivity|].
  cbn [label_names map] in Hnames. injection Hnames as Hname Hrest.
  cbn [fold_left]. rewrite (tally_step_same_name s d d' Hname).
  apply IH. exact Hrest.
Qed.

Lemma classify_reads_names_only_witness :
  classify [ {| Timestamp := 40;
                ModerationLabel := {| Confidence := QArith_base.Qmake 1 2;
                                      Name := "Weapons";
                                      ParentName := "Violence" |} |} ] =
  classify [labelled "Weapons"].
Proof. apply classify_reads_names_only. reflexivity. Defined.

(** ** Opening the notification channel *)

Lemma invoke_performed (E : service) (c : call) (st : state) :
  faults E c = None -> invoke E c st = (Returns tt, performed c st).
Proof. apply invoke_accepted. Qed.

Lemma performed_all_video (cs : list call) :
  forall st, video (performed_all cs st) = video st.
Proof.
  induction cs as [|c cs IH]; intros st; [reflexivity|].
  cbn [performed_all fold_left]. fold (performed_all cs (performed c st)).
  rewrite IH. reflexivity.
Qed.

Lemma performed_all_calls (cs : list call) :
  forall st, calls (cloud (performed_all cs st)) = calls (cloud st) ++ cs.
Proof.
  induction cs as [|c cs IH]; intros st.
  - cbn. rewrite app_nil_r. reflexivity.
  - cbn [performed_all fold_left]. fold (performed_all cs (performed c st)).
    rewrite IH.
    assert (Hc : calls (cloud (performed c st)) = calls (cloud st) ++ [c])
      by (destruct c; reflexivity).
    rewrite Hc, <- app_assoc. reflexivity.
Qed.

Lemma performed_all_app (cs1 cs2 : list call) (st : state) :
  performed_all (cs1 ++ cs2) st = performed_all cs2 (performed_all cs1 st).
Proof. unfold performed_all. apply fold_left_app. Qed.

(** *** Reading the fields of a state after a step *)

Lemma invoke_logged (E : service) (c : call) (st : state) (e : exn) :
  faults E c = Some e -> invoke E c st = (Raises e, logged c st).
Proof. apply invoke_refused. Qed.

Lemma assign_topic_put (h : option string) (st : state) :
  assign_topic h st = (Returns tt, put_topic h st).
Proof. reflexivity. Qed.

Lemma assign_queue_put (h : option string) (st : state) :
  assign_queue h st = (Returns tt, put_queue h st).
Proof. reflexivity. Qed.

Lemma assign_role_put (h : option string) (st : state) :
  assign_role h st = (Returns tt, put_role h st).
Proof. reflexivity. Qed.

Lemma performed_video c st : video (performed c st) = video st.
Proof. reflexivity. Qed.

Lemma performed_calls c st :
  calls (cloud (performed c st)) = calls (cloud st) ++ [c].
Proof. destruct c; reflexivity. Qed.

Lemma performed_topic_live c st :
  topic_live (cloud (performed c st)) =
  match c with
  | CreateTopic _ => true
  | DeleteTopic => false
  | _ => topic_live (cloud st)
  end.
Proof. destruct c; reflexivity. Qed.

Lemma performed_queue_live c st :
  queue_live (cloud (performed c st)) =
  match c with
  | CreateQueue _ => true
  | DeleteQueue => false
  | _ => queue_live (cloud st)
  end.
Proof. destruct c; reflexivity. Qed.

Lemma performed_role_live c st :
  role_live (cloud (performed c st)) =
  match c with
  | CreateRole _ => true
  | DeleteRole => false
  | _ => role_live (cloud st)
  end.
Proof. destruct c; reflexivity. Qed.

Lemma performed_bucket_live c st :
  bucket_live (cloud (performed c st)) =
  match c with
  | CreateBucket => true
  | DeleteBucket => false
  | _ => bucket_live (cloud st)
  end.
Proof. destruct c; reflexivity. Qed.

Lemma performed_objects c st :
  objects (cloud (performed c st)) =
  match c with
  | UploadFile path => path :: objects (cloud st)
  | DeleteObjects => []
  | _ => objects (cloud st)
  end.
Proof. destruct c; reflexivity. Qed.

Lemma performed_attached c st :
  attached (cloud (performed c st)) =
  match c with
  | AttachRolePolicy arn => arn :: attached (cloud st)
  | DetachRolePolicy arn => without arn (attached (cloud st))
  | _ => attached (cloud st)
  end.
Proof. destruct c; reflexivity. Qed.

Lemma performed_policies c st :
  policies (cloud (performed c st)) =
  match c with
  | CreatePolicy name => name :: policies (cloud st)
  | DeletePolicy arn => without arn (policies (cloud st))
  | _ => policies (cloud st)
  end.
Proof. destruct c; reflexivity. Qed.

Lemma performed_deleted c st :
  deleted (cloud (performed c st)) =
  match c with
  | DeleteMessage m => deleted (cloud st) ++ [m]
  | _ => deleted (cloud st)
  end.
Proof. destruct c; reflexivity. Qed.

Lemma performed_pending c st :
  pending (cloud (performed c st)) = pending (cloud st).
Proof. destruct c; reflexivity. Qed.

Lemma logged_video c st : video (logged c st) = video st.
Proof. reflexivity. Qed.

Lemma logged_calls c st : calls (cloud (logged c st)) = calls (cloud st) ++ [c].
Proof. reflexivity. Qed.

Lemma logged_topic_live c st : topic_live (cloud (logged c st)) = topic_live (cloud st).
Proof. reflexivity. Qed.

Lemma logged_queue_live c st : queue_live (cloud (logged c st)) = queue_live (cloud st).
Proof. reflexivity. Qed.

Lemma logged_role_live c st : role_live (cloud (logged c st)) = role_live (cloud st).
Proof. reflexivity. Qed.

Lemma logged_bucket_live c st : bucket_live (cloud (logged c st)) = bucket_live (cloud st).
Proof. reflexivity. Qed.

Lemma logged_objects c st : objects (cloud (logged c st)) = objects (cloud st).
Proof. reflexivity. Qed.

Lemma logged_attached c st : attached (cloud (logged c st)) = attached (cloud st).
Proof. reflexivity. Qed.

Lemma logged_policies c st : policies (cloud (logged c st)) = policies (cloud st).
Proof. reflexivity. Qed.

Lemma logged_deleted c st : deleted (cloud (logged c st)) = deleted (cloud st).
Proof. reflexivity. Qed.

Lemma logged_pending c st : pending (cloud (logged c st)) = pending (cloud st).
Proof. reflexivity. Qed.

Lemma put_topic_cloud h st : cloud (put_topic h st) = cloud st.
Proof. reflexivity. Qed.

Lemma put_queue_cloud h st : cloud (put_queue h st) = cloud st.
Proof. reflexivity. Qed.

Lemma put_role_cloud h st : cloud (put_role h st) = cloud st.
Proof. reflexivity. Qed.

Lemma put_topic_topic h st : topic (video (put_topic h st)) = h.
Proof. reflexivity. Qed.

Lemma put_topic_queue h st : queue (video (put_topic h st)) = queue (video st).
Proof. reflexivity. Qed.

Lemma put_topic_role h st : role (video (put_topic h st)) = role (video st).
Proof. reflexivity. Qed.

Lemma put_queue_topic h st : topic (video (put_queue h st)) = topic (video st).
Proof. reflexivity. Qed.

Lemma put_queue_queue h st : queue (video (put_queue h st)) = h.
Proof. reflexivity. Qed.

Lemma put_queue_role h st : role (video (put_queue h st)) = role (video st).
Proof. reflexivity. Qed.

Lemma put_role_topic h st : topic (video (put_role h st)) = topic (video st).
Proof. reflexivity. Qed.

Lemma put_role_queue h st : queue (video (put_role h st)) = queue (video st).
Proof. reflexivity. Qed.

Lemma put_role_role h st : role (video (put_role h st)) = h.
Proof. reflexivity. Qed.

Lemma received_video w rest st : video (received w rest st) = video st.
Proof. reflexivity. Qed.

Lemma received_calls w rest st :
  calls (cloud (received w rest st)) = calls (cloud st) ++ [ReceiveMessages w].
Proof. reflexivity. Qed.

Lemma received_pending w rest st : pending (cloud (received w rest st)) = rest.
Proof. reflexivity. Qed.

Lemma received_deleted w rest st :
  deleted (cloud (received w rest st)) = deleted (cloud st).
Proof. reflexivity. Qed.

Lemma received_resources w rest st :
  resources (cloud (received w rest st)) = resources (cloud st).
Proof. reflexivity. Qed.

Lemma performed_job_resources c st :
  is_job_call c = true -> resources (cloud (performed c st)) = resources (cloud st).
Proof. destruct c; try discriminate; reflexivity. Qed.

Lemma logged_resources c st : resources (cloud (logged c st)) = resources (cloud st).
Proof. reflexivity. Qed.

Create Rewrite HintDb fields.

#[local] Hint Rewrite
  performed_video performed_calls performed_topic_live performed_queue_live
  performed_role_live performed_bucket_live performed_objects
  performed_attached performed_policies performed_deleted performed_pending
  logged_video logged_calls logged_topic_live logged_queue_live
  logged_role_live logged_bucket_live logged_objects logged_attached
  logged_policies logged_deleted logged_pending
  put_topic_cloud put_queue_cloud put_role_cloud
  put_topic_topic put_topic_queue put_topic_role
  put_queue_topic put_queue_queue put_queue_role
  put_role_topic put_role_queue put_role_role
  received_video received_calls received_pending received_deleted
  : fields.

Ltac fields := autorewrite with fields; cbv beta iota.

Ltac performed_by H :=
  rewrite (bind_Returns _ _ _ _ _ (invoke_performed _ _ _ H)).

Ltac logged_by H :=
  rewrite (bind_Raises _ _ _ _ _ (invoke_logged _ _ _ _ H)).

Ltac assigned :=
  first [ rewrite (bind_Returns _ _ _ _ _ (assign_topic_put _ _))
        | rewrite (bind_Returns _ _ _ _ _ (assign_queue_put _ _))
        | rewrite (bind_Returns _ _ _ _ _ (assign_role_put _ _)) ].

Ltac settle :=
  cbn [fst snd negb andb]; repeat split; intros; try discriminate;
  fields; rewrite <- ?app_assoc; try reflexivity.

(** What [create_notification_channel] does, in terms of its plan. *)
Lemma create_notification_channel_plan
        (E : service) (resource_name : string) (st : state) :
  let run := create_notification_channel E resource_name st in
  let plan := open_plan resource_name in
  fst run = match first_fault E plan with
            | Some e => Raises e
            | None => Returns tt
            end /\
  calls (cloud (snd run)) = calls (cloud st) ++ attempted E plan /\
  (accepts E [CreateTopic resource_name] = true ->
   topic_live (cloud (snd run)) = true /\
   topic (video (snd run)) = Some resource_name) /\
  (accepts E [CreateTopic resource_name; CreateQueue resource_name] = true ->
   queue_live (cloud (snd run)) = true /\
   queue (video (snd run)) = Some resource_name) /\
  (accepts E [ CreateTopic resource_name; CreateQueue resource_name;
               SetQueueAttributes; Subscribe; CreateRole resource_name ] = true ->
   role_live (cloud (snd run)) = true /\
   role (video (snd run)) = Some resource_name) /\
  (first_fault E plan = None ->
   attached (cloud (snd run)) = resource_name :: attached (cloud st) /\
   policies (cloud (snd run)) = resource_name :: policies (cloud st)).
Proof.
  cbv zeta. unfold create_notification_channel, open_plan.
  cbn [attempted first_fault accepts forallb]. unfold refused.
  destruct (faults E (CreateTopic resource_name)) as [e|] eqn:H1.
  { logged_by H1. settle. }
  performed_by H1. assigned.
  destruct (faults E (CreateQueue resource_name)) as [e|] eqn:H2.
  { logged_by H2. settle. }
  performed_by H2. assigned.
  destruct (faults E SetQueueAttributes) as [e|] eqn:H3.
  { logged_by H3. settle. }
  performed_by H3.
  destruct (faults E Subscribe) as [e|] eqn:H4.
  { logged_by H4. settle. }
  performed_by H4.
  destruct (faults E (CreateRole resource_name)) as [e|] eqn:H5.
  { logged_by H5. settle. }
  performed_by H5. assigned.
  destruct (faults E (CreatePolicy resource_name)) as [e|] eqn:H6.
  { logged_by H6. settle. }
  performed_by H6.
  destruct (faults E (AttachRolePolicy resource_name)) as [e|] eqn:H7.
  { rewrite (invoke_logged E _ _ e H7). settle. }
  rewrite (invoke_performed E _ _ H7). settle.
Qed.

(** X5. [create_notification_channel] creates the topic, the queue, the
    role and the policy in that order and stops at the first operation
    that is refused, raising its exception.  Nothing is rolled back:
    what was created before the refusal stays, with its handle set.
    When nothing is refused the policy is attached to the role. *)
Theorem create_notification_channel_keeps_what_it_created
        (E : service) (resource_name : string) (st : state) :
  let run := create_notification_channel E resource_name st in
  let plan := open_plan resource_name in
  fst run = match first_fault E plan with
            | Some e => Raises e
            | None => Returns tt
            end /\
  calls (cloud (snd run)) = calls (cloud st) ++ attempted E plan /\
  (accepts E [CreateTopic resource_name] = true ->
   topic_live (cloud (snd run)) = true /\
   topic (video (snd run)) = Some resource_name) /\
  (accepts E [CreateTopic resource_name; CreateQueue resource_name] = true ->
   queue_live (cloud (snd run)) = true /\
   queue (video (snd run)) = Some resource_name) /\
  (accepts E [ CreateTopic resource_name; CreateQueue resource_name;
               SetQueueAttributes; Subscribe; CreateRole resource_name ] = true ->
   role_live (cloud (snd run)) = true /\
   role (video (snd run)) = Some resource_name) /\
  (first_fault E plan = None ->
   attached (cloud (snd run)) = resource_name :: attached (cloud st) /\
   policies (cloud (snd run)) = resource_name :: policies (cloud st)).
Proof. exact (create_notification_channel_plan E resource_name st). Qed.

Lemma create_notification_channel_keeps_what_it_created_witness :
  let run := create_notification_channel
               {| faults := fun c =>
                    match c with
                    | CreateRole _ => Some (ClientError "CreateRole")
                    | _ => None
                    end;
                  issued_job_id := "job-1";
                  job_results := job_results obliging |}
               "test-video-rekognition" (entry []) in
  fst run = Raises (ClientError "CreateRole") /\
  topic_live (cloud (snd run)) = true /\
  queue_live (cloud (snd run)) = true /\
  role (video (snd run)) = None.
Proof.
  cbv zeta.
  match goal with
  | |- context [create_notification_channel ?E ?name ?st] =>
    destruct (create_notification_channel_keeps_what_it_created E name st)
      as (Hfst & _ & Htopic & Hqueue & _)
  end.
  split; [exact Hfst|].
  split; [exact (proj1 (Htopic eq_refl))|].
  split; [exact (proj1 (Hqueue eq_refl))|reflexivity].
Defined.

(** ** Waiting for the completion message *)

Ltac polled_field :=
  let n := fresh "n" in let IH := fresh "IH" in
  intros n; induction n as [|n IH]; intros ? ?; cbn [polled];
  [reflexivity|rewrite IH; reflexivity].

Lemma polled_topic_live w : forall n rest st,
  topic_live (cloud (polled w n rest st)) = topic_live (cloud st).
Proof. polled_field. Qed.

Lemma polled_queue_live w : forall n rest st,
  queue_live (cloud (polled w n rest st)) = queue_live (cloud st).
Proof. polled_field. Qed.

Lemma polled_role_live w : forall n rest st,
  role_live (cloud (polled w n rest st)) = role_live (cloud st).
Proof. polled_field. Qed.

Lemma polled_bucket_live w : forall n rest st,
  bucket_live (cloud (polled w n rest st)) = bucket_live (cloud st).
Proof. polled_field. Qed.

Lemma polled_objects w : forall n rest st,
  objects (cloud (polled w n rest st)) = objects (cloud st).
Proof. polled_field. Qed.

Lemma polled_attached w : forall n rest st,
  attached (cloud (polled w n rest st)) = attached (cloud st).
Proof. polled_field. Qed.

Lemma polled_policies w : forall n rest st,
  policies (cloud (polled w n rest st)) = policies (cloud st).
Proof. polled_field. Qed.

Lemma received_topic_live w rest st :
  topic_live (cloud (received w rest st)) = topic_live (cloud st).
Proof. reflexivity. Qed.

Lemma received_queue_live w rest st :
  queue_live (cloud (received w rest st)) = queue_live (cloud st).
Proof. reflexivity. Qed.

Lemma received_role_live w rest st :
  role_live (cloud (received w rest st)) = role_live (cloud st).
Proof. reflexivity. Qed.

Lemma received_bucket_live w rest st :
  bucket_live (cloud (received w rest st)) = bucket_live (cloud st).
Proof. reflexivity. Qed.

Lemma received_objects w rest st :
  objects (cloud (received w rest st)) = objects (cloud st).
Proof. reflexivity. Qed.

Lemma received_attached w rest st :
  attached (cloud (received w rest st)) = attached (cloud st).
Proof. reflexivity. Qed.

Lemma received_policies w rest st :
  policies (cloud (received w rest st)) = policies (cloud st).
Proof. reflexivity. Qed.

#[local] Hint Rewrite
  received_topic_live received_queue_live received_role_live received_bucket_live
  received_objects received_attached received_policies
  polled_video polled_deleted polled_calls polled_topic_live polled_queue_live
  polled_role_live polled_bucket_live polled_objects polled_attached
  polled_policies : fields.

Lemma repeat_snoc {A} (a : A) (n : nat) : repeat a n ++ [a] = repeat a (S n).
Proof.
  change [a] with (repeat a 1).
  rewrite <- repeat_app, Nat.add_1_r. reflexivity.
Qed.

(** The loop on a queue that delivers the awaited message after [n]
    empty receives. *)
Lemma poll_notification_acknowledged
      (E : service) (w : Z) (job_id : string) (n : nat) (m : notification)
      (rest : list receipt) (st : state) :
  queue (video st) <> None ->
  pending (cloud st) = repeat NoMessage n ++ Message m :: rest ->
  JobId m = job_id ->
  faults E (DeleteMessage m) = None ->
  poll_notification E w job_id st =
  (Returns (Status m), acknowledged w n m rest st).
Proof.
  intros Hq Hpending Hid Hack. unfold poll_notification. rewrite Hpending.
  rewrite poll_loop_skip by exact Hq.
  rewrite poll_loop_match by (rewrite ?polled_video; assumption).
  change (with_cloud (with_pending rest
            (with_calls (calls (cloud ?s) ++ [ReceiveMessages w]) (cloud ?s))) ?s)
    with (received w rest s).
  performed_by Hack. reflexivity.
Qed.

(** X6. When the first message the queue delivers, after any number of
    empty receives, is for the awaited job, [poll_notification] deletes
    that message and returns its status, whatever the status is.  It
    receives once per round, deletes nothing else, leaves the later
    messages on the queue and touches no provisioned resource. *)
Theorem poll_notification_returns_status
        (E : service) (w : Z) (job_id : string) (n : nat) (m : notification)
        (rest : list receipt) (st : state) :
  queue (video st) <> None ->
  pending (cloud st) = repeat NoMessage n ++ Message m :: rest ->
  JobId m = job_id ->
  faults E (DeleteMessage m) = None ->
  exists st',
    poll_notification E w job_id st = (Returns (Status m), st') /\
    deleted (cloud st') = deleted (cloud st) ++ [m] /\
    calls (cloud st') =
      calls (cloud st) ++ repeat (ReceiveMessages w) (S n) ++ [DeleteMessage m] /\
    pending (cloud st') = rest /\
    resources (cloud st') = resources (cloud st) /\
    video st' = video st.
Proof.
  intros Hq Hpending Hid Hack.
  exists (acknowledged w n m rest st).
  split; [apply poll_notification_acknowledged; assumption|].
  unfold acknowledged, resources. fields.
  rewrite <- !app_assoc, <- repeat_snoc, <- !app_assoc.
  repeat split.
Qed.

Lemma poll_notification_returns_status_witness :
  exists st',
    poll_notification obliging 10 "job-1"
      (opened "video.mp4"
         [NoMessage; NoMessage; Message {| JobId := "job-1"; Status := "PARTIAL" |};
          Message (succeeded "job-1")]) =
    (Returns "PARTIAL", st') /\
    pending (cloud st') = [Message (succeeded "job-1")].
Proof.
  destruct (poll_notification_returns_status obliging 10 "job-1" 2
              {| JobId := "job-1"; Status := "PARTIAL" |}
              [Message (succeeded "job-1")]
              (opened "video.mp4"
                 [NoMessage; NoMessage;
                  Message {| JobId := "job-1"; Status := "PARTIAL" |};
                  Message (succeeded "job-1")]))
    as (st' & Hrun & _ & _ & Hpending & _).
  - cbn. discriminate.
  - reflexivity.
  - reflexivity.
  - reflexivity.
  - exists st'. split; [exact Hrun|exact Hpending].
Defined.

Lemma poll_loop_outcome_ext (E : service) (w : Z) (job_id : string)
      (script : list receipt) :
  forall st st', queue (video st) = queue (video st') ->
    fst (poll_loop E w job_id script st) = fst (poll_loop E w job_id script st').
Proof.
  induction script as [|r script IH]; intros st st' Hq; cbn [poll_loop];
    rewrite Hq; destruct (queue (video st')) eqn:Hq'; try reflexivity.
  destruct r as [|m|e]; [|
    destruct (negb (job_id == JobId m)); [reflexivity|];
    unfold bind, invoke; destruct (faults E (DeleteMessage m)); reflexivity
    | reflexivity].
  apply IH. cbn. congruence.
Qed.

(** X7. Receives that come back empty only make [poll_notification] go
    round again: its outcome is the one it has on what the queue
    delivers after them.  On a queue that never delivers anything it
    never returns; there is no timeout. *)
Theorem poll_notification_ignores_empty_receives
        (E : service) (w : Z) (job_id : string) (n : nat)
        (rest : list receipt) (st st' : state) :
  queue (video st) <> None ->
  video st' = video st ->
  pending (cloud st) = repeat NoMessage n ++ rest ->
  pending (cloud st') = rest ->
  fst (poll_notification E w job_id st) = fst (poll_notification E w job_id st') /\
  (rest = [] -> fst (poll_notification E w job_id st) = Diverges).
Proof.
  intros Hq Hvideo Hpending Hpending'.
  assert (Hskip : fst (poll_notification E w job_id st)
                  = fst (poll_loop E w job_id rest st')).
  { unfold poll_notification. rewrite Hpending.
    rewrite poll_loop_skip by exact Hq.
    apply poll_loop_outcome_ext. rewrite polled_video, Hvideo. reflexivity. }
  split.
  - rewrite Hskip. unfold poll_notification. rewrite Hpending'. reflexivity.
  - intros ->. rewrite Hskip. cbn [poll_loop].
    rewrite Hvideo. destruct (queue (video st)); [reflexivity|congruence].
Qed.

Lemma poll_notification_ignores_empty_receives_witness :
  fst (poll_notification obliging 10 "job-1"
         (opened "video.mp4" [NoMessage; NoMessage; NoMessage])) = Diverges.
Proof.
  apply (poll_notification_ignores_empty_receives obliging 10 "job-1" 3 []
           (opened "video.mp4" [NoMessage; NoMessage; NoMessage])
           (opened "video.mp4" []));
    try reflexivity.
  cbn. discriminate.
Defined.

(** X8. When a receive itself raises, [poll_notification] lets the
    exception through: nothing is deleted and nothing but receives was
    invoked. *)
Theorem poll_notification_receive_error_propagates
        (E : service) (w : Z) (job_id : string) (n : nat) (e : exn)
        (rest : list receipt) (st : state) :
  queue (video st) <> None ->
  pending (cloud st) = repeat NoMessage n ++ ReceiveError e :: rest ->
  exists st',
    poll_notification E w job_id st = (Raises e, st') /\
    deleted (cloud st') = deleted (cloud st) /\
    calls (cloud st') = calls (cloud st) ++ repeat (ReceiveMessages w) (S n) /\
    resources (cloud st') = resources (cloud st).
Proof.
  intros Hq Hpending.
  exists (received w rest (polled w n (ReceiveError e :: rest) st)).
  split.
  - unfold poll_notification. rewrite Hpending.
    rewrite poll_loop_skip by exact Hq. cbn [poll_loop].
    rewrite polled_video.
    destruct (queue (video st)); [reflexivity|congruence].
  - unfold resources. fields. rewrite <- app_assoc, repeat_snoc.
    repeat split.
Qed.

Lemma poll_notification_receive_error_propagates_witness :
  exists st',
    poll_notification obliging 10 "job-1"
      (opened "video.mp4" [NoMessage; ReceiveError (ClientError "ReceiveMessage")]) =
    (Raises (ClientError "ReceiveMessage"), st') /\
    deleted (cloud st') = [].
Proof.
  destruct (poll_notification_receive_error_propagates obliging 10 "job-1" 1
              (ClientError "ReceiveMessage") []
              (opened "video.mp4"
                 [NoMessage; ReceiveError (ClientError "ReceiveMessage")]))
    as (st' & Hrun & Hdeleted & _).
  - cbn. discriminate.
  - reflexivity.
  - exists st'. split; [exact Hrun|exact Hdeleted].
Defined.

(** X9. When the awaited message has come in but deleting it is refused,
    [poll_notification] raises the exception of the refusal and the
    status of the job is not returned. *)
Theorem poll_notification_unacknowledged_raises
        (E : service) (w : Z) (job_id : string) (n : nat) (m : notification)
        (rest : list receipt) (st : state) (e : exn) :
  queue (video st) <> None ->
  pending (cloud st) = repeat NoMessage n ++ Message m :: rest ->
  JobId m = job_id ->
  faults E (DeleteMessage m) = Some e ->
  exists st',
    poll_notification E w job_id st = (Raises e, st') /\
    deleted (cloud st') = deleted (cloud st) /\
    calls (cloud st') =
      calls (cloud st) ++ repeat (ReceiveMessages w) (S n) ++ [DeleteMessage m].
Proof.
  intros Hq Hpending Hid Hack.
  exists (logged (DeleteMessage m)
            (received w rest (polled w n (Message m :: rest) st))).
  split.
  - unfold poll_notification. rewrite Hpending.
    rewrite poll_loop_skip by exact Hq.
    rewrite poll_loop_match by (rewrite ?polled_video; assumption).
    change (with_cloud (with_pending rest
              (with_calls (calls (cloud ?s) ++ [ReceiveMessages w]) (cloud ?s))) ?s)
      with (received w rest s).
    logged_by Hack. reflexivity.
  - fields. rewrite <- !app_assoc, <- repeat_snoc, <- !app_assoc.
    repeat split.
Qed.

Lemma poll_notification_unacknowledged_raises_witness :
  exists st',
    poll_notification
      {| faults := fun c =>
           match c with
           | DeleteMessage _ => Some (ClientError "DeleteMessage")
           | _ => None
           end;
         issued_job_id := "job-1";
         job_results := job_results obliging |}
      10 "job-1" (opened "video.mp4" [Message (succeeded "job-1")]) =
    (Raises (ClientError "DeleteMessage"), st') /\
    deleted (cloud st') = [].
Proof.
  match goal with
  | |- context [poll_notification ?E _ _ _] =>
    destruct (poll_notification_unacknowledged_raises E 10 "job-1" 0
                (succeeded "job-1") []
                (opened "video.mp4" [Message (succeeded "job-1")])
                (ClientError "DeleteMessage"))
      as (st' & Hrun & Hdeleted & _)
  end.
  - cbn. discriminate.
  - reflexivity.
  - reflexivity.
  - reflexivity.
  - exists st'. split; [exact Hrun|exact Hdeleted].
Defined.

(** ** The job *)

(** X10. On a video object whose role or topic handle is not set (no
    channel was created), the job raises [AttributeError] while building
    the notification channel argument: nothing is sent to the service
    and the state does not change. *)
Theorem do_content_moderation_needs_channel
        (E : service) (mc : QArith_base.Q) (w : Z) (st : state) :
  role (video st) = None \/ topic (video st) = None ->
  do_content_moderation E mc w st = (Raises AttributeError, st).
Proof.
  intros Hnone.
  unfold do_content_moderation, _do_rekognition_job, _start_rekognition_job,
    get_notification_channel, bind, field.
  destruct (role (video st)) as [r|]; [|reflexivity].
  cbn [deref ret].
  destruct (topic (video st)) as [t|]; [|reflexivity].
  destruct Hnone; discriminate.
Qed.

Lemma do_content_moderation_needs_channel_witness :
  do_content_moderation obliging default_min_confidence default_poll_wait_time
    (entry [Message (succeeded "job-1")]) =
  (Raises AttributeError, entry [Message (succeeded "job-1")]).
Proof.
  apply do_content_moderation_needs_channel. left. reflexivity.
Defined.

Lemma start_performed (E : service) (mc : QArith_base.Q) (st : state) :
  role (video st) <> None -> topic (video st) <> None ->
  faults E (StartContentModeration mc) = None ->
  _start_rekognition_job E mc st =
  (Returns (issued_job_id E), performed (StartContentModeration mc) st).
Proof.
  intros Hr Ht Hstart.
  unfold _start_rekognition_job, get_notification_channel, bind, field.
  destruct (role (video st)); [|congruence]. cbn [deref ret].
  destruct (topic (video st)); [|congruence]. cbn [deref ret].
  rewrite (invoke_performed E _ st Hstart). reflexivity.
Qed.

(** The job on an open channel whose queue delivers the awaited message
    after [n] empty receives. *)
Lemma job_fetched
      (E : service) (mc : QArith_base.Q) (w : Z) (n : nat) (m : notification)
      (rest : list receipt) (st : state) :
  is_open (video st) ->
  pending (cloud st) = repeat NoMessage n ++ Message m :: rest ->
  accepts E [ StartContentModeration mc; DeleteMessage m;
              GetContentModeration (issued_job_id E) ] = true ->
  JobId m = issued_job_id E ->
  Status m = "SUCCEEDED" ->
  do_content_moderation E mc w st =
  (Returns (Response (job_results E)),
   performed (GetContentModeration (issued_job_id E))
     (acknowledged w n m rest (performed (StartContentModeration mc) st))).
Proof.
  intros (Ht & Hq & Hr) Hpending Hacc Hid Hstatus.
  pose proof (accepts_in E _ Hacc) as Hok.
  unfold do_content_moderation, _do_rekognition_job.
  rewrite (bind_Returns _ _ _ _ _
             (start_performed E mc st Hr Ht (Hok _ (or_introl eq_refl)))).
  rewrite (bind_Returns _ _ _ _ _
             (poll_notification_acknowledged E w _ n m rest
                (performed (StartContentModeration mc) st) Hq Hpending Hid
                (Hok _ (or_intror (or_introl eq_refl))))).
  rewrite Hstatus. cbn [String.eqb Ascii.eqb Bool.eqb].
  unfold _get_rekognition_job_results.
  rewrite (bind_Returns _ _ _ _ _
             (bind_Returns _ _ _ _ _
                (invoke_performed E _ _
                   (Hok _ (or_intror (or_intror (or_introl eq_refl))))))).
  reflexivity.
Qed.

Lemma job_not_fetched
      (E : service) (mc : QArith_base.Q) (w : Z) (n : nat) (m : notification)
      (rest : list receipt) (st : state) :
  is_open (video st) ->
  pending (cloud st) = repeat NoMessage n ++ Message m :: rest ->
  accepts E [ StartContentModeration mc; DeleteMessage m ] = true ->
  JobId m = issued_job_id E ->
  Status m <> "SUCCEEDED" ->
  do_content_moderation E mc w st =
  (Returns EmptyList,
   acknowledged w n m rest (performed (StartContentModeration mc) st)).
Proof.
  intros (Ht & Hq & Hr) Hpending Hacc Hid Hstatus.
  pose proof (accepts_in E _ Hacc) as Hok.
  unfold do_content_moderation, _do_rekognition_job.
  rewrite (bind_Returns _ _ _ _ _
             (start_performed E mc st Hr Ht (Hok _ (or_introl eq_refl)))).
  rewrite (bind_Returns _ _ _ _ _
             (poll_notification_acknowledged E w _ n m rest
                (performed (StartContentModeration mc) st) Hq Hpending Hid
                (Hok _ (or_intror (or_introl eq_refl))))).
  destruct (String.eqb_spec (Status m) "SUCCEEDED") as [Heq|_]; [contradiction|].
  reflexivity.
Qed.

(** X11. On an open channel whose queue delivers the awaited message,
    the job fetches the results exactly when the status of the message
    is the string ['SUCCEEDED']: then it hands back the response of
    [get_content_moderation]; with any other status it hands back the
    empty list and [get_content_moderation] is not invoked.  Either way
    the message was deleted, and the operations were invoked in the
    order start, receives, delete message, fetch. *)
Theorem do_content_moderation_fetches_iff_succeeded
        (E : service) (mc : QArith_base.Q) (w : Z) (n : nat) (m : notification)
        (rest : list receipt) (st : state) :
  is_open (video st) ->
  pending (cloud st) = repeat NoMessage n ++ Message m :: rest ->
  accepts E [ StartContentModeration mc; DeleteMessage m;
              GetContentModeration (issued_job_id E) ] = true ->
  JobId m = issued_job_id E ->
  exists st',
    do_content_moderation E mc w st =
    (Returns (if Status m == "SUCCEEDED"
              then Response (job_results E) else EmptyList), st') /\
    calls (cloud st') =
      calls (cloud st) ++ [StartContentModeration mc]
      ++ repeat (ReceiveMessages w) (S n) ++ [DeleteMessage m]
      ++ (if Status m == "SUCCEEDED"
          then [GetContentModeration (issued_job_id E)] else []) /\
    deleted (cloud st') = deleted (cloud st) ++ [m].
Proof.
  intros Hopen Hpending Hacc Hid.
  destruct (String.eqb_spec (Status m) "SUCCEEDED") as [Hstatus|Hstatus].
  - eexists. split; [apply job_fetched; eassumption|].
    unfold acknowledged. fields.
    rewrite <- !app_assoc, <- repeat_snoc, <- !app_assoc. repeat split.
  - assert (Hacc' : accepts E [StartContentModeration mc; DeleteMessage m] = true).
    { unfold accepts in *. cbn [forallb] in *.
      apply andb_prop in Hacc. destruct Hacc as [H1 Hacc].
      apply andb_prop in Hacc. destruct Hacc as [H2 _].
      rewrite H1, H2. reflexivity. }
    eexists. split; [apply job_not_fetched; eassumption|].
    unfold acknowledged. fields.
    rewrite <- !app_assoc, <- repeat_snoc, <- !app_assoc. repeat split.
Qed.

Lemma do_content_moderation_fetches_iff_succeeded_witness :
  exists st',
    do_content_moderation obliging default_min_confidence default_poll_wait_time
      (opened "video.mp4" [NoMessage; Message {| JobId := "job-1";
                                                  Status := "succeeded" |}]) =
    (Returns EmptyList, st') /\
    calls (cloud st') =
      provision_calls "video.mp4"
      ++ [ StartContentModeration default_min_confidence;
           ReceiveMessages 10; ReceiveMessages 10;
           DeleteMessage {| JobId := "job-1"; Status := "succeeded" |} ].
Proof.
  destruct (do_content_moderation_fetches_iff_succeeded obliging
              default_min_confidence default_poll_wait_time 1
              {| JobId := "job-1"; Status := "succeeded" |} []
              (opened "video.mp4"
                 [NoMessage; Message {| JobId := "job-1";
                                        Status := "succeeded" |}]))
    as (st' & Hrun & Hcalls & _).
  - repeat split; discriminate.
  - reflexivity.
  - reflexivity.
  - reflexivity.
  - exists st'. split; [exact Hrun|exact Hcalls].
Defined.

(** X12. Whatever its outcome, the job only invokes its own operations
    (start, receive, delete message, fetch): it creates and deletes no
    resource, and leaves the handles of the video object, the channel,
    the bucket and the staged objects as they were. *)
Theorem do_content_moderation_touches_no_resource
        (E : service) (mc : QArith_base.Q) (w : Z) (st : state) :
  let st' := snd (do_content_moderation E mc w st) in
  video st' = video st /\
  resources (cloud st') = resources (cloud st) /\
  exists cs, calls (cloud st') = calls (cloud st) ++ cs /\
             forallb is_job_call cs = true /\
             existsb is_teardown cs = false.
Proof.
  cbv zeta.
  destruct (job_do_content_moderation E mc w st) as (Hvideo & Hres & cs & Hcalls & Hjob).
  split; [exact Hvideo|]. split; [exact Hres|].
  exists cs. split; [exact Hcalls|]. split; [exact Hjob|].
  apply job_call_not_teardown. exact Hjob.
Qed.

(** ** Closing what was opened *)

Lemma In_without (x p : string) (l : list string) :
  In x (without p l) <-> In x l /\ x <> p.
Proof.
  unfold without. rewrite filter_In.
  destruct (String.eqb_spec x p) as [->|Hne]; cbn [negb].
  - split; [intros [_ H]; discriminate|intros [_ H]; congruence].
  - split; intros [H _]; (split; [exact H|]); [exact Hne|reflexivity].
Qed.

Lemma In_strip (ps : list string) :
  forall l x, In x (strip ps l) -> In x l /\ ~ In x ps.
Proof.
  induction ps as [|p ps IH]; intros l x Hin; [split; [exact Hin|intros []]|].
  cbn [strip fold_left] in Hin. fold (strip ps (without p l)) in Hin.
  apply IH in Hin. destruct Hin as [Hin Hps].
  apply In_without in Hin. destruct Hin as [Hin Hne].
  split; [exact Hin|]. intros [Heq|Hin']; [congruence|contradiction].
Qed.

Lemma strip_covered (ps l : list string) :
  (forall x, In x l -> In x ps) -> strip ps l = [].
Proof.
  intros Hsub. destruct (strip ps l) as [|x l'] eqn:Hstrip; [reflexivity|].
  destruct (In_strip ps l x) as [Hin Hnot].
  - rewrite Hstrip. left. reflexivity.
  - exfalso. apply Hnot, Hsub, Hin.
Qed.

Lemma accepts_app (E : service) (l1 l2 : list call) :
  accepts E (l1 ++ l2) = accepts E l1 && accepts E l2.
Proof. unfold accepts. apply forallb_app. Qed.

Lemma detach_loop_performed (E : service) (ps : list string) :
  forall st, accepts E (detach_plan ps) = true ->
    for_each ps (fun policy =>
      invoke E (DetachRolePolicy policy) ;; invoke E (DeletePolicy policy)) st =
    (Returns tt, performed_all (detach_plan ps) st).
Proof.
  induction ps as [|p ps IH]; intros st Hacc; [reflexivity|].
  pose proof (accepts_in E _ Hacc) as Hok.
  cbn [for_each].
  rewrite (bind_Returns _ _ _ _ _
             (eq_trans
                (bind_Returns _ _ _ _ _
                   (invoke_performed E (DetachRolePolicy p) st
                      (Hok _ (or_introl eq_refl))))
                (invoke_performed E (DeletePolicy p) _
                   (Hok _ (or_intror (or_introl eq_refl)))))).
  apply IH.
  change (detach_plan (p :: ps))
    with ([DetachRolePolicy p; DeletePolicy p] ++ detach_plan ps) in Hacc.
  rewrite accepts_app in Hacc. apply andb_prop in Hacc. apply Hacc.
Qed.

Lemma detached_fields (ps : list string) :
  forall st,
    attached (cloud (performed_all (detach_plan ps) st)) = strip ps (attached (cloud st)) /\
    policies (cloud (performed_all (detach_plan ps) st)) = strip ps (policies (cloud st)) /\
    topic_live (cloud (performed_all (detach_plan ps) st)) = topic_live (cloud st) /\
    queue_live (cloud (performed_all (detach_plan ps) st)) = queue_live (cloud st) /\
    role_live (cloud (performed_all (detach_plan ps) st)) = role_live (cloud st) /\
    bucket_live (cloud (performed_all (detach_plan ps) st)) = bucket_live (cloud st) /\
    objects (cloud (performed_all (detach_plan ps) st)) = objects (cloud st) /\
    deleted (cloud (performed_all (detach_plan ps) st)) = deleted (cloud st) /\
    pending (cloud (performed_all (detach_plan ps) st)) = pending (cloud st).
Proof.
  induction ps as [|p ps IH]; intros st; [repeat split|].
  change (performed_all (detach_plan (p :: ps)) st)
    with (performed_all (detach_plan ps)
            (performed (DeletePolicy p) (performed (DetachRolePolicy p) st))).
  destruct (IH (performed (DeletePolicy p) (performed (DetachRolePolicy p) st)))
    as (H1 & H2 & H3 & H4 & H5 & H6 & H7 & H8 & H9).
  rewrite H1, H2, H3, H4, H5, H6, H7, H8, H9. fields.
  repeat split.
Qed.

(** [delete_notification_channel] on an open channel, when none of its
    operations is refused. *)
Lemma delete_notification_channel_done (E : service) (st : state) :
  is_open (video st) ->
  accepts E (close_plan (attached (cloud st))) = true ->
  delete_notification_channel E st =
  (Returns tt, torn_down (attached (cloud st)) st).
Proof.
  intros (Ht & Hq & Hr) Hacc.
  pose proof (accepts_in E _ Hacc) as Hok.
  assert (Hloop : accepts E (detach_plan (attached (cloud st))) = true).
  { unfold close_plan in Hacc.
    change (ListAttachedRolePolicies :: ?l ++ ?l')
      with ([ListAttachedRolePolicies] ++ l ++ l') in Hacc.
    rewrite !accepts_app in Hacc.
    apply andb_prop in Hacc. destruct Hacc as [_ Hacc].
    apply andb_prop in Hacc. apply Hacc. }
  assert (Hlast : forall c, In c [DeleteRole; DeleteQueue; DeleteTopic] ->
                            faults E c = None).
  { intros c Hc. apply Hok. unfold close_plan. right.
    apply in_or_app. right. exact Hc. }
  destruct (role (video st)) as [r|] eqn:Hrole; [|congruence].
  destruct (queue (video st)) as [q|] eqn:Hqueue; [|congruence].
  destruct (topic (video st)) as [t|] eqn:Htopic; [|congruence].
  unfold delete_notification_channel, torn_down.
  returns_by_computation. rewrite Hrole. returns_by_computation.
  performed_by (Hok _ (or_introl eq_refl)).
  match goal with
  | |- context [bind ?m ?k ?s] => rewrite (bind_Returns m k s s _ eq_refl)
  end.
  rewrite performed_attached. cbv beta iota.
  rewrite (bind_Returns _ _ _ _ _ (detach_loop_performed E _ _ Hloop)).
  returns_by_computation.
  rewrite performed_all_video, performed_video, Hrole.
  returns_by_computation.
  performed_by (Hlast _ (or_introl eq_refl)). assigned.
  returns_by_computation.
  rewrite put_role_queue, performed_video, performed_all_video, performed_video,
    Hqueue.
  returns_by_computation.
  performed_by (Hlast _ (or_intror (or_introl eq_refl))). assigned.
  returns_by_computation.
  rewrite put_queue_topic, performed_video, put_role_topic, performed_video,
    performed_all_video, performed_video, Htopic.
  returns_by_computation.
  performed_by (Hlast _ (or_intror (or_intror (or_introl eq_refl)))).
  apply assign_topic_put.
Qed.

Lemma torn_down_fields (ps : list string) (st : state) :
  is_closed (video (torn_down ps st)) /\
  topic_live (cloud (torn_down ps st)) = false /\
  queue_live (cloud (torn_down ps st)) = false /\
  role_live (cloud (torn_down ps st)) = false /\
  attached (cloud (torn_down ps st)) = strip ps (attached (cloud st)) /\
  policies (cloud (torn_down ps st)) = strip ps (policies (cloud st)) /\
  bucket_live (cloud (torn_down ps st)) = bucket_live (cloud st) /\
  objects (cloud (torn_down ps st)) = objects (cloud st) /\
  deleted (cloud (torn_down ps st)) = deleted (cloud st) /\
  pending (cloud (torn_down ps st)) = pending (cloud st) /\
  calls (cloud (torn_down ps st)) = calls (cloud st) ++ close_plan ps.
Proof.
  destruct (detached_fields ps (performed ListAttachedRolePolicies st))
    as (H1 & H2 & H3 & H4 & H5 & H6 & H7 & H8 & H9).
  unfold torn_down, is_closed, close_plan. fields.
  rewrite H1, H2, H6, H7, H8, H9, performed_all_calls. fields.
  fold (detach_plan ps). rewrite <- !app_assoc.
  repeat split.
Qed.

Lemma create_notification_channel_done
      (E : service) (resource_name : string) (st : state) :
  accepts E (open_plan resource_name) = true ->
  create_notification_channel E resource_name st =
  (Returns tt, created resource_name st).
Proof.
  intros Hacc. pose proof (accepts_in E _ Hacc) as Hok.
  unfold create_notification_channel, created.
  performed_by (Hok _ (or_introl eq_refl)). assigned.
  performed_by (Hok _ (or_intror (or_introl eq_refl))). assigned.
  performed_by (Hok _ (or_intror (or_intror (or_introl eq_refl)))).
  performed_by (Hok _ (or_intror (or_intror (or_intror (or_introl eq_refl))))).
  performed_by (Hok _ (or_intror (or_intror (or_intror (or_intror
                        (or_introl eq_refl)))))).
  assigned.
  performed_by (Hok _ (or_intror (or_intror (or_intror (or_intror (or_intror
                        (or_introl eq_refl))))))).
  apply invoke_performed.
  apply Hok. cbn. tauto.
Qed.

(** X13. Creating the channel and then deleting it, with nothing
    refused, leaves nothing of it: the topic, the queue and the role are
    gone, no policy is attached any more, the created policy no longer
    exists, and the three handles are [None] again.  The operations are
    those of the creation followed by those of the deletion. *)
Theorem create_then_delete_leaves_nothing
        (E : service) (resource_name : string) (st : state) :
  accepts E (open_plan resource_name) = true ->
  accepts E (close_plan (resource_name :: attached (cloud st))) = true ->
  exists st',
    (create_notification_channel E resource_name ;;
     delete_notification_channel E) st = (Returns tt, st') /\
    is_closed (video st') /\
    topic_live (cloud st') = false /\
    queue_live (cloud st') = false /\
    role_live (cloud st') = false /\
    attached (cloud st') = [] /\
    ~ In resource_name (policies (cloud st')) /\
    calls (cloud st') =
      calls (cloud st) ++ open_plan resource_name
      ++ close_plan (resource_name :: attached (cloud st)).
Proof.
  intros Hopen Hclose.
  assert (Hattached : attached (cloud (created resource_name st))
                      = resource_name :: attached (cloud st))
    by (unfold created; fields; reflexivity).
  assert (Hdelete : delete_notification_channel E (created resource_name st)
                    = (Returns tt,
                       torn_down (resource_name :: attached (cloud st))
                         (created resource_name st))).
  { rewrite <- Hattached. apply delete_notification_channel_done.
    - unfold created, is_open. fields. repeat split; discriminate.
    - rewrite Hattached. exact Hclose. }
  exists (torn_down (resource_name :: attached (cloud st))
            (created resource_name st)).
  split.
  - rewrite (bind_Returns _ _ _ _ _
               (create_notification_channel_done E resource_name st Hopen)).
    exact Hdelete.
  - destruct (torn_down_fields (resource_name :: attached (cloud st))
                (created resource_name st))
      as (Hclosed & Ht & Hq & Hr & Hatt & Hpol & _ & _ & _ & _ & Hcalls).
    split; [exact Hclosed|]. split; [exact Ht|]. split; [exact Hq|].
    split; [exact Hr|]. split; [|split].
    + rewrite Hatt, Hattached. apply strip_covered. auto.
    + rewrite Hpol. intros Hin. apply In_strip in Hin.
      destruct Hin as [_ Hnot]. apply Hnot. left. reflexivity.
    + rewrite Hcalls. unfold created. fields.
      rewrite <- !app_assoc. reflexivity.
Qed.

Lemma create_then_delete_leaves_nothing_witness :
  exists st',
    (create_notification_channel obliging "test-video-rekognition" ;;
     delete_notification_channel obliging) (entry []) = (Returns tt, st') /\
    attached (cloud st') = [] /\
    topic_live (cloud st') = false.
Proof.
  destruct (create_then_delete_leaves_nothing obliging "test-video-rekognition"
              (entry []))
    as (st' & Hrun & _ & Ht & _ & _ & Hatt & _).
  - reflexivity.
  - reflexivity.
  - exists st'. repeat split; assumption.
Defined.

(** ** The session, step by step *)

Lemma cleanup_done (E : service) (st : state) :
  is_open (video st) ->
  accepts E (cleanup_plan (attached (cloud st))) = true ->
  cleanup E st =
  (Returns tt,
   performed DeleteBucket
     (performed DeleteObjects (torn_down (attached (cloud st)) st))).
Proof.
  intros Hopen Hacc. unfold cleanup_plan in Hacc.
  rewrite accepts_app in Hacc. apply andb_prop in Hacc.
  destruct Hacc as [Hclose Hbucket].
  pose proof (accepts_in E _ Hbucket) as Hok.
  unfold cleanup.
  rewrite (bind_Returns _ _ _ _ _
             (delete_notification_channel_done E st Hopen Hclose)).
  performed_by (Hok _ (or_introl eq_refl)).
  apply invoke_performed. apply Hok. cbn. tauto.
Qed.

(** The outcome and the trace of lines 294-298 on an open channel. *)
Lemma cleanup_plan_outcome (E : service) (st : state) :
  is_open (video st) ->
  let plan := cleanup_plan (attached (cloud st)) in
  fst (cleanup E st) = match first_fault E plan with
                       | Some e => Raises e
                       | None => Returns tt
                       end /\
  calls (cloud (snd (cleanup E st))) = calls (cloud st) ++ attempted E plan.
Proof.
  intros Hopen. cbv zeta. unfold cleanup_plan.
  destruct (delete_notification_channel_plan E st Hopen) as (Hfst & Hcalls & _).
  rewrite first_fault_app, attempted_app. unfold cleanup.
  destruct (delete_notification_channel E st) as [r st1] eqn:Hdelete.
  cbn [fst snd] in Hfst, Hcalls.
  destruct (first_fault E (close_plan (attached (cloud st)))) as [e|] eqn:Hclose.
  - subst r. rewrite (bind_Raises _ _ _ _ _ Hdelete).
    assert (Hacc : accepts E (close_plan (attached (cloud st))) = false).
    { destruct (accepts E _) eqn:Hacc; [|reflexivity].
      apply first_fault_accepts in Hacc. congruence. }
    rewrite Hacc. split; [reflexivity|exact Hcalls].
  - subst r. rewrite (bind_Returns _ _ _ _ _ Hdelete).
    apply first_fault_accepts in Hclose.
    rewrite (attempted_accepted E _ Hclose) in Hcalls. rewrite Hclose.
    cbn [first_fault attempted]. unfold refused.
    destruct (faults E DeleteObjects) as [e|] eqn:Hobjects.
    { logged_by Hobjects. cbn [fst snd]. fields. rewrite Hcalls, <- app_assoc.
      split; reflexivity. }
    performed_by Hobjects.
    destruct (faults E DeleteBucket) as [e|] eqn:Hbucket.
    { rewrite (invoke_logged E _ _ e Hbucket). cbn [fst snd]. fields.
      rewrite Hcalls, <- !app_assoc. split; reflexivity. }
    rewrite (invoke_performed E _ _ Hbucket). cbn [fst snd]. fields.
    rewrite Hcalls, <- !app_assoc. split; reflexivity.
Qed.

(** The state in which the session leaves the job that fetched. *)
Lemma fetched_fields (mc : QArith_base.Q) (w : Z) (video_path : string)
      (n : nat) (m : notification) (rest : list receipt) (id : string)
      (tail : list call) :
  let st := acknowledged w n m rest
              (performed (StartContentModeration mc)
                 (opened video_path (repeat NoMessage n ++ Message m :: rest))) in
  is_open (video st) /\
  attached (cloud st) = ["test-video-rekognition"] /\
  policies (cloud st) = ["test-video-rekognition"] /\
  deleted (cloud st) = [m] /\
  pending (cloud st) = rest /\
  calls (cloud st) ++ tail =
    provision_calls video_path ++ [StartContentModeration mc]
    ++ repeat (ReceiveMessages w) (S n) ++ [DeleteMessage m] ++ tail.
Proof.
  cbv zeta. unfold acknowledged, is_open. fields.
  cbn [opened cloud video topic queue role attached policies deleted calls].
  rewrite <- !app_assoc, <- repeat_snoc, <- !app_assoc.
  repeat split; discriminate.
Qed.

(** X14. A session in which nothing is refused and the awaited message
    reports ['SUCCEEDED'] returns the dictionary of the fetched
    detections.  Its operations are, in order: the provisioning, the
    start of the job, one receive per round, the deletion of the
    message, the fetch, and the teardown; at the end the channel, its
    policy, the bucket and the staged video are all gone and the handles
    are [None]. *)
Theorem content_moderation_goes_through
        (E : service) (mc : QArith_base.Q) (w : Z) (video_path : string)
        (n : nat) (m : notification) (rest : list receipt) :
  accepts E (provision_calls video_path) = true ->
  accepts E [ StartContentModeration mc; DeleteMessage m;
              GetContentModeration (issued_job_id E) ] = true ->
  accepts E (cleanup_plan ["test-video-rekognition"]) = true ->
  JobId m = issued_job_id E ->
  Status m = "SUCCEEDED" ->
  exists st',
    content_moderation E mc w video_path
      (entry (repeat NoMessage n ++ Message m :: rest)) =
    (Returns (pred_values (classify (ModerationLabels (job_results E)))), st') /\
    calls (cloud st') =
      provision_calls video_path ++ [StartContentModeration mc]
      ++ repeat (ReceiveMessages w) (S n)
      ++ [DeleteMessage m; GetContentModeration (issued_job_id E)]
      ++ cleanup_plan ["test-video-rekognition"] /\
    channel_absent (cloud st') = true /\
    bucket_live (cloud st') = false /\
    objects (cloud st') = [] /\
    deleted (cloud st') = [m] /\
    pending (cloud st') = rest /\
    is_closed (video st').
Proof.
  intros Hprov Hjob Hclean Hid Hstatus.
  set (script := repeat NoMessage n ++ Message m :: rest).
  destruct (fetched_fields mc w video_path n m rest (issued_job_id E)
              ([GetContentModeration (issued_job_id E)]
               ++ cleanup_plan ["test-video-rekognition"]))
    as (Hopen & Hatt & Hpol & Hdel & Hpend & Hcalls).
  fold script in Hopen, Hatt, Hpol, Hdel, Hpend, Hcalls.
  set (st1 := acknowledged w n m rest
                (performed (StartContentModeration mc) (opened video_path script)))
    in *.
  set (st2 := performed (GetContentModeration (issued_job_id E)) st1).
  assert (Hdo : do_content_moderation E mc w (opened video_path script)
                = (Returns (Response (job_results E)), st2)).
  { apply job_fetched; try assumption; [|reflexivity].
    repeat split; discriminate. }
  assert (Hcleanup : cleanup E st2
                     = (Returns tt,
                        performed DeleteBucket
                          (performed DeleteObjects
                             (torn_down ["test-video-rekognition"] st2)))).
  { replace ["test-video-rekognition"] with (attached (cloud st2))
      by (unfold st2; fields; exact Hatt).
    apply cleanup_done.
    - unfold st2, is_open. fields. exact Hopen.
    - replace (attached (cloud st2)) with ["test-video-rekognition"]
        by (unfold st2; fields; symmetry; exact Hatt).
      exact Hclean. }
  eexists. split.
  - unfold content_moderation.
    rewrite (bind_Returns _ _ _ _ _ (provision_opened E video_path script Hprov)).
    rewrite (bind_Returns _ _ _ _ _ Hdo).
    rewrite (bind_Returns _ _ _ _ _ Hcleanup).
    reflexivity.
  - destruct (torn_down_fields ["test-video-rekognition"] st2)
      as (Hclosed & Ht & Hq & Hr & Hatt' & Hpol' & _ & _ & Hdel' & Hpend' & Hcalls').
    unfold channel_absent. fields.
    rewrite Ht, Hq, Hr, Hatt', Hpol', Hdel', Hpend', Hcalls'.
    unfold st2. fields. rewrite Hatt, Hpol, Hdel, Hpend.
    unfold cleanup_plan in *. rewrite <- !app_assoc.
    split; [exact Hcalls|].
    split; [reflexivity|]. split; [reflexivity|]. split; [reflexivity|].
    split; [reflexivity|]. split; [reflexivity|exact Hclosed].
Qed.

Lemma content_moderation_goes_through_witness :
  exists st',
    content_moderation obliging default_min_confidence default_poll_wait_time
      "video.mp4" (entry [NoMessage; Message (succeeded "job-1")]) =
    (Returns (pred_values (classify sample_detections)), st') /\
    channel_absent (cloud st') = true /\
    bucket_live (cloud st') = false.
Proof.
  destruct (content_moderation_goes_through obliging default_min_confidence
              default_poll_wait_time "video.mp4" 1 (succeeded "job-1") [])
    as (st' & Hrun & _ & Habsent & Hbucket & _); try reflexivity.
  exists st'. repeat split; assumption.
Defined.

(** X15. In every session in which nothing is refused and the awaited
    message carries a status other than ['SUCCEEDED'], the results are
    not fetched, the teardown runs to its end, and the session then ends
    with [TypeError] (line 365 indexes the empty list by a string): no
    dictionary is returned. *)
Theorem content_moderation_other_status_raises
        (E : service) (mc : QArith_base.Q) (w : Z) (video_path : string)
        (n : nat) (m : notification) (rest : list receipt) :
  accepts E (provision_calls video_path) = true ->
  accepts E [ StartContentModeration mc; DeleteMessage m ] = true ->
  accepts E (cleanup_plan ["test-video-rekognition"]) = true ->
  JobId m = issued_job_id E ->
  Status m <> "SUCCEEDED" ->
  exists st',
    content_moderation E mc w video_path
      (entry (repeat NoMessage n ++ Message m :: rest)) =
    (Raises TypeError, st') /\
    calls (cloud st') =
      provision_calls video_path ++ [StartContentModeration mc]
      ++ repeat (ReceiveMessages w) (S n) ++ [DeleteMessage m]
      ++ cleanup_plan ["test-video-rekognition"] /\
    channel_absent (cloud st') = true /\
    bucket_live (cloud st') = false.
Proof.
  intros Hprov Hjob Hclean Hid Hstatus.
  set (script := repeat NoMessage n ++ Message m :: rest).
  destruct (fetched_fields mc w video_path n m rest (issued_job_id E)
              (cleanup_plan ["test-video-rekognition"]))
    as (Hopen & Hatt & Hpol & _ & _ & Hcalls).
  fold script in Hopen, Hatt, Hpol, Hcalls.
  set (st1 := acknowledged w n m rest
                (performed (StartContentModeration mc) (opened video_path script)))
    in *.
  assert (Hdo : do_content_moderation E mc w (opened video_path script)
                = (Returns EmptyList, st1)).
  { apply job_not_fetched; try assumption; [|reflexivity].
    repeat split; discriminate. }
  assert (Hcleanup : cleanup E st1
                     = (Returns tt,
                        performed DeleteBucket
                          (performed DeleteObjects
                             (torn_down ["test-video-rekognition"] st1)))).
  { rewrite <- Hatt. apply cleanup_done; [exact Hopen|].
    rewrite Hatt. exact Hclean. }
  eexists. split.
  - unfold content_moderation.
    rewrite (bind_Returns _ _ _ _ _ (provision_opened E video_path script Hprov)).
    rewrite (bind_Returns _ _ _ _ _ Hdo).
    rewrite (bind_Returns _ _ _ _ _ Hcleanup).
    reflexivity.
  - destruct (torn_down_fields ["test-video-rekognition"] st1)
      as (_ & Ht & Hq & Hr & Hatt' & Hpol' & _ & _ & _ & _ & Hcalls').
    unfold channel_absent. fields.
    rewrite Ht, Hq, Hr, Hatt', Hpol', Hcalls', Hatt, Hpol.
    unfold cleanup_plan in *. rewrite <- !app_assoc.
    split; [exact Hcalls|]. split; reflexivity.
Qed.

Lemma content_moderation_other_status_raises_witness :
  exists st',
    content_moderation obliging default_min_confidence default_poll_wait_time
      "video.mp4" (entry [NoMessage; NoMessage; Message (failed "job-1")]) =
    (Raises TypeError, st') /\
    channel_absent (cloud st') = true.
Proof.
  destruct (content_moderation_other_status_raises obliging
              default_min_confidence default_poll_wait_time "video.mp4" 2
              (failed "job-1") [])
    as (st' & Hrun & _ & Habsent & _); try reflexivity.
  - discriminate.
  - exists st'. split; assumption.
Defined.

(** X16. The tally is only computed after the teardown: when the job
    has fetched its results but an operation of the teardown is refused,
    the session ends with the exception of that refusal and the result
    of the job is lost, although [get_content_moderation] was invoked. *)
Theorem content_moderation_teardown_refusal_loses_result
        (E : service) (mc : QArith_base.Q) (w : Z) (video_path : string)
        (n : nat) (m : notification) (rest : list receipt) (e : exn) :
  accepts E (provision_calls video_path) = true ->
  accepts E [ StartContentModeration mc; DeleteMessage m;
              GetContentModeration (issued_job_id E) ] = true ->
  first_fault E (cleanup_plan ["test-video-rekognition"]) = Some e ->
  JobId m = issued_job_id E ->
  Status m = "SUCCEEDED" ->
  let run := content_moderation E mc w video_path
               (entry (repeat NoMessage n ++ Message m :: rest)) in
  fst run = Raises e /\
  calls (cloud (snd run)) =
    provision_calls video_path ++ [StartContentModeration mc]
    ++ repeat (ReceiveMessages w) (S n)
    ++ [DeleteMessage m; GetContentModeration (issued_job_id E)]
    ++ attempted E (cleanup_plan ["test-video-rekognition"]).
Proof.
  intros Hprov Hjob Hfault Hid Hstatus. cbv zeta.
  set (script := repeat NoMessage n ++ Message m :: rest).
  destruct (fetched_fields mc w video_path n m rest (issued_job_id E)
              ([GetContentModeration (issued_job_id E)]
               ++ attempted E (cleanup_plan ["test-video-rekognition"])))
    as (Hopen & Hatt & _ & _ & _ & Hcalls).
  fold script in Hopen, Hatt, Hcalls.
  set (st1 := acknowledged w n m rest
                (performed (StartContentModeration mc) (opened video_path script)))
    in *.
  set (st2 := performed (GetContentModeration (issued_job_id E)) st1).
  assert (Hdo : do_content_moderation E mc w (opened video_path script)
                = (Returns (Response (job_results E)), st2)).
  { apply job_fetched; try assumption; [|reflexivity].
    repeat split; discriminate. }
  assert (Hatt2 : attached (cloud st2) = ["test-video-rekognition"])
    by (unfold st2; fields; exact Hatt).
  assert (Hopen2 : is_open (video st2))
    by (unfold st2, is_open; fields; exact Hopen).
  destruct (cleanup_plan_outcome E st2 Hopen2) as (Hfst & Hcalls2).
  rewrite Hatt2 in Hfst, Hcalls2. rewrite Hfault in Hfst.
  unfold content_moderation.
  rewrite (bind_Returns _ _ _ _ _ (provision_opened E video_path script Hprov)).
  rewrite (bind_Returns _ _ _ _ _ Hdo).
  rewrite (bind_Raises _ _ _ _ _ (fst_Raises _ _ Hfst)).
  cbn [fst snd]. split; [reflexivity|].
  rewrite Hcalls2. unfold st2. fields. rewrite <- !app_assoc. exact Hcalls.
Qed.

Lemma content_moderation_teardown_refusal_loses_result_witness :
  fst (content_moderation role_keeping default_min_confidence
         default_poll_wait_time "video.mp4"
         (entry [Message (succeeded "job-1")])) =
  Raises (ClientError "DeleteRole").
Proof.
  apply (content_moderation_teardown_refusal_loses_result role_keeping
           default_min_confidence default_poll_wait_time "video.mp4" 0
           (succeeded "job-1") [] (ClientError "DeleteRole"));
    reflexivity.
Defined.

Lemma create_notification_channel_keeps_bucket
      (E : service) (resource_name : string) (st : state) :
  let st' := snd (create_notification_channel E resource_name st) in
  bucket_live (cloud st') = bucket_live (cloud st) /\
  objects (cloud st') = objects (cloud st) /\
  pending (cloud st') = pending (cloud st).
Proof.
  cbv zeta. unfold create_notification_channel.
  destruct (faults E (CreateTopic resource_name)) as [e|] eqn:H1.
  { logged_by H1. settle. }
  performed_by H1. assigned.
  destruct (faults E (CreateQueue resource_name)) as [e|] eqn:H2.
  { logged_by H2. settle. }
  performed_by H2. assigned.
  destruct (faults E SetQueueAttributes) as [e|] eqn:H3.
  { logged_by H3. settle. }
  performed_by H3.
  destruct (faults E Subscribe) as [e|] eqn:H4.
  { logged_by H4. settle. }
  performed_by H4.
  destruct (faults E (CreateRole resource_name)) as [e|] eqn:H5.
  { logged_by H5. settle. }
  performed_by H5. assigned.
  destruct (faults E (CreatePolicy resource_name)) as [e|] eqn:H6.
  { logged_by H6. settle. }
  performed_by H6.
  destruct (faults E (AttachRolePolicy resource_name)) as [e|] eqn:H7.
  { rewrite (invoke_logged E _ _ e H7). settle. }
  rewrite (invoke_performed E _ _ H7). settle.
Qed.

(** X17. When an operation of the provisioning is refused, the session
    ends with its exception before the job is started: nothing after the
    refused operation is invoked, no message is received, and nothing is
    deleted.  If the refusal comes after the upload, the bucket stays
    with the video in it. *)
Theorem content_moderation_provisioning_refusal
        (E : service) (mc : QArith_base.Q) (w : Z) (video_path : string)
        (script : list receipt) (e : exn) :
  first_fault E (provision_calls video_path) = Some e ->
  let run := content_moderation E mc w video_path (entry script) in
  fst run = Raises e /\
  calls (cloud (snd run)) = attempted E (provision_calls video_path) /\
  pending (cloud (snd run)) = script /\
  (accepts E [CreateBucket; UploadFile video_path] = true ->
   bucket_live (cloud (snd run)) = true /\
   objects (cloud (snd run)) = [video_path]).
Proof.
  intros Hfault. cbv zeta. unfold content_moderation, provision.
  unfold provision_calls in *.
  cbn [first_fault attempted accepts forallb] in *. unfold refused in *.
  destruct (faults E CreateBucket) as [e1|] eqn:H1.
  { injection Hfault as ->.
    rewrite (bind_Raises _ _ _ _ _
               (bind_Raises _ _ _ _ _ (invoke_logged E _ (entry script) _ H1))).
    cbn [fst snd]. fields. repeat split; discriminate. }
  destruct (faults E (UploadFile video_path)) as [e2|] eqn:H2.
  { injection Hfault as ->.
    rewrite (bind_Raises _ _ _ _ _
               (eq_trans (bind_Returns _ _ _ _ _ (invoke_performed E _ _ H1))
                  (bind_Raises _ _ _ _ _ (invoke_logged E _ _ _ H2)))).
    cbn [fst snd]. fields. repeat split; discriminate. }
  set (st0 := with_video {| video_name := video_path; topic := None;
                            queue := None; role := None |}
                (performed (UploadFile video_path)
                   (performed CreateBucket (entry script)))).
  destruct (create_notification_channel_plan E "test-video-rekognition" st0)
    as (Hfst & Hcalls & _).
  destruct (create_notification_channel_keeps_bucket E "test-video-rekognition" st0)
    as (Hbucket & Hobjects & Hpending).
  cbn [open_plan first_fault attempted] in Hfst, Hcalls. unfold refused in Hcalls.
  rewrite Hfault in Hfst.
  assert (Hprov : (invoke E CreateBucket ;;
                   invoke E (UploadFile video_path) ;;
                   from_bucket video_path ;;
                   create_notification_channel E "test-video-rekognition")
                    (entry script)
                  = create_notification_channel E "test-video-rekognition" st0).
  { performed_by H1. performed_by H2.
    rewrite (bind_Returns (from_bucket video_path) _ _ st0 tt eq_refl).
    reflexivity. }
  rewrite (bind_Raises _ _ _ _ _ (eq_trans Hprov (fst_Raises _ _ Hfst))).
  cbn [fst snd]. rewrite Hcalls, Hbucket, Hobjects, Hpending.
  repeat split.
Qed.

Lemma content_moderation_provisioning_refusal_witness :
  let run := content_moderation
               {| faults := fun c =>
                    match c with
                    | CreateRole _ => Some (ClientError "CreateRole")
                    | _ => None
                    end;
                  issued_job_id := "job-1";
                  job_results := job_results obliging |}
               default_min_confidence default_poll_wait_time "video.mp4"
               (entry [Message (succeeded "job-1")]) in
  fst run = Raises (ClientError "CreateRole") /\
  bucket_live (cloud (snd run)) = true.
Proof.
  cbv zeta.
  match goal with
  | |- context [content_moderation ?E ?mc ?w ?p ?st] =>
    destruct (content_moderation_provisioning_refusal E mc w p
                [Message (succeeded "job-1")] (ClientError "CreateRole") eq_refl)
      as (Hfst & _ & _ & Hbucket)
  end.
  split; [exact Hfst|exact (proj1 (Hbucket eq_refl))].
Defined.

(** X18. Whenever the job does not return (it raises, whatever the
    exception, or never leaves the polling loop), the session ends the
    same way in the state the job left: no operation of the teardown is
    invoked, and the channel, the bucket and the staged video all stay
    behind. *)
Theorem content_moderation_job_failure_leaves_everything
        (E : service) (mc : QArith_base.Q) (w : Z) (video_path : string)
        (script : list receipt) :
  accepts E (provision_calls video_path) = true ->
  let job := do_content_moderation E mc w (opened video_path script) in
  let run := content_moderation E mc w video_path (entry script) in
  (forall r, fst job <> Returns r) ->
  (forall e, fst job = Raises e -> fst run = Raises e) /\
  (fst job = Diverges -> fst run = Diverges) /\
  snd run = snd job /\
  existsb is_teardown (calls (cloud (snd run))) = false /\
  channel_intact (cloud (snd run)) = true /\
  bucket_live (cloud (snd run)) = true /\
  objects (cloud (snd run)) = [video_path].
Proof.
  intros Hprov. cbv zeta. intros Hfail.
  pose proof (job_do_content_moderation E mc w (opened video_path script))
    as (_ & Hres & cs & Hcalls & Hcs).
  unfold content_moderation.
  rewrite (bind_Returns _ _ _ _ _ (provision_opened E video_path script Hprov)).
  destruct (do_content_moderation E mc w (opened video_path script))
    as [[r|e|] st2] eqn:Hdo; cbn [fst snd] in *.
  - exfalso. apply (Hfail r). reflexivity.
  - rewrite (bind_Raises _ _ _ _ _ Hdo). cbn [fst snd].
    unfold resources in Hres. cbn in Hres.
    injection Hres as Ht Hq Hr Hp Ha Hb Ho.
    unfold channel_intact. rewrite Ht, Hq, Hr, Ha, Hb, Ho, Hcalls.
    rewrite existsb_app, (job_call_not_teardown cs Hcs).
    repeat split; congruence.
  - assert (Hrun : forall B (k : results -> M B),
               bind (do_content_moderation E mc w) k (opened video_path script)
               = (Diverges, st2))
      by (intros B k; unfold bind; rewrite Hdo; reflexivity).
    rewrite Hrun. cbn [fst snd].
    unfold resources in Hres. cbn in Hres.
    injection Hres as Ht Hq Hr Hp Ha Hb Ho.
    unfold channel_intact. rewrite Ht, Hq, Hr, Ha, Hb, Ho, Hcalls.
    rewrite existsb_app, (job_call_not_teardown cs Hcs).
    repeat split; congruence.
Qed.

Lemma content_moderation_job_failure_leaves_everything_witness :
  let run := content_moderation obliging default_min_confidence
               default_poll_wait_time "video.mp4" (entry [NoMessage; NoMessage]) in
  fst run = Diverges /\
  bucket_live (cloud (snd run)) = true /\
  channel_intact (cloud (snd run)) = true.
Proof.
  cbv zeta.
  destruct (content_moderation_job_failure_leaves_everything obliging
              default_min_confidence default_poll_wait_time "video.mp4"
              [NoMessage; NoMessage] eq_refl)
    as (_ & Hdiverges & _ & _ & Hintact & Hbucket & _).
  - intros r. vm_compute. discriminate.
  - split; [apply Hdiverges; reflexivity|]. split; assumption.
Defined.

(** Without a role handle [delete_notification_channel] raises at its
    first line. *)
Lemma delete_notification_channel_closed_by_role (E : service) (st : state) :
  role (video st) = None ->
  delete_notification_channel E st = (Raises AttributeError, st).
Proof.
  intros Hrole. unfold delete_notification_channel.
  returns_by_computation. rewrite Hrole. reflexivity.
Qed.

(** ** A deletion that stopped half-way *)

(** X19. A [delete_notification_channel] that stopped at the queue
    cannot be taken up again: the role handle was already set to [None],
    so a second call raises [AttributeError] at its first line, invokes
    nothing, and the queue and the topic are left as they were. *)
Theorem delete_notification_channel_cannot_resume
        (E : service) (st : state) (e : exn) :
  is_open (video st) ->
  accepts E (ListAttachedRolePolicies :: detach_plan (attached (cloud st))
             ++ [DeleteRole]) = true ->
  faults E DeleteQueue = Some e ->
  let first := delete_notification_channel E st in
  let second := delete_notification_channel E (snd first) in
  fst first = Raises e /\
  role_live (cloud (snd first)) = false /\
  fst second = Raises AttributeError /\
  snd second = snd first /\
  queue_live (cloud (snd second)) = queue_live (cloud st) /\
  topic_live (cloud (snd second)) = topic_live (cloud st).
Proof.
  intros (Ht & Hq & Hr) Hacc Hqueue. cbv zeta.
  pose proof (accepts_in E _ Hacc) as Hok.
  assert (Hloop : accepts E (detach_plan (attached (cloud st))) = true).
  { change (ListAttachedRolePolicies :: ?l ++ ?l')
      with ([ListAttachedRolePolicies] ++ l ++ l') in Hacc.
    rewrite !accepts_app in Hacc.
    apply andb_prop in Hacc. destruct Hacc as [_ Hacc].
    apply andb_prop in Hacc. apply Hacc. }
  assert (Hrole : faults E DeleteRole = None).
  { apply Hok. right. apply in_or_app. right. left. reflexivity. }
  destruct (detached_fields (attached (cloud st))
              (performed ListAttachedRolePolicies st))
    as (_ & _ & Htl & Hql & _).
  assert (Hfirst : delete_notification_channel E st
                   = (Raises e,
                      logged DeleteQueue
                        (put_role None
                           (performed DeleteRole
                              (performed_all (detach_plan (attached (cloud st)))
                                 (performed ListAttachedRolePolicies st)))))).
  { destruct (role (video st)) as [r|] eqn:Hrole'; [|congruence].
    destruct (queue (video st)) as [q|] eqn:Hqueue'; [|congruence].
    unfold delete_notification_channel.
    returns_by_computation. rewrite Hrole'. returns_by_computation.
    performed_by (Hok _ (or_introl eq_refl)).
    match goal with
    | |- context [bind ?m ?k ?s] => rewrite (bind_Returns m k s s _ eq_refl)
    end.
    rewrite performed_attached. cbv beta iota.
    rewrite (bind_Returns _ _ _ _ _ (detach_loop_performed E _ _ Hloop)).
    returns_by_computation.
    rewrite performed_all_video, performed_video, Hrole'.
    returns_by_computation.
    performed_by Hrole. assigned.
    returns_by_computation.
    rewrite put_role_queue, performed_video, performed_all_video, performed_video,
      Hqueue'.
    returns_by_computation.
    logged_by Hqueue. reflexivity. }
  rewrite Hfirst. cbn [fst snd].
  rewrite delete_notification_channel_closed_by_role by (fields; reflexivity).
  cbn [fst snd]. fields. rewrite Htl, Hql. fields.
  repeat split.
Qed.

Lemma delete_notification_channel_cannot_resume_witness :
  let E := {| faults := fun c =>
                match c with
                | DeleteQueue => Some (ClientError "DeleteQueue")
                | _ => None
                end;
              issued_job_id := "job-1";
              job_results := job_results obliging |} in
  let first := delete_notification_channel E (opened "video.mp4" []) in
  fst first = Raises (ClientError "DeleteQueue") /\
  fst (delete_notification_channel E (snd first)) = Raises AttributeError /\
  queue_live (cloud (snd first)) = true.
Proof.
  cbv zeta.
  match goal with
  | |- context [delete_notification_channel ?E (opened _ _)] =>
    destruct (delete_notification_channel_cannot_resume E (opened "video.mp4" [])
                (ClientError "DeleteQueue"))
      as (Hfirst & _ & Hsecond & Hsame & Hqueue & _)
  end.
  - repeat split; discriminate.
  - reflexivity.
  - reflexivity.
  - split; [exact Hfirst|]. split; [exact Hsecond|].
    rewrite <- Hsame. exact Hqueue.
Defined.

(** ** What the returned dictionary holds *)

Lemma dict_get_labelled_row (v : pyval) (key : string) (row : list (string * Z)) :
  dict_get key (map (fun kv => (fst kv, PyInt (snd kv))) row ++ [("label", v)]) =
  match dict_get key row with
  | Some n => Some (PyInt n)
  | None => if key == "label" then Some v else None
  end.
Proof.
  induction row as [|[k n] row IH]; cbn [map app dict_get fst snd].
  - reflexivity.
  - destruct (key == k); [reflexivity|exact IH].
Qed.

Lemma job_response (E : service) (mc : QArith_base.Q) (w : Z)
      (st st' : state) (r : response) :
  do_content_moderation E mc w st = (Returns (Response r), st') ->
  r = job_results E.
Proof.
  unfold do_content_moderation, _do_rekognition_job. intros Hrun.
  apply bind_inv in Hrun. destruct Hrun as (job_id & st1 & _ & Hrun).
  apply bind_inv in Hrun. destruct Hrun as (status & st2 & _ & Hrun).
  destruct (status == "SUCCEEDED"); [|discriminate Hrun].
  apply bind_inv in Hrun. destruct Hrun as (r' & st3 & Hget & Hrun).
  unfold _get_rekognition_job_results in Hget.
  apply bind_inv in Hget. destruct Hget as (_ & st4 & _ & Hget).
  unfold ret in Hrun, Hget. congruence.
Qed.

(** X20. Whenever a session returns, the dictionary is the one of the
    fetched response: under each category key it holds the number of
    fetched detections whose label maps to that key, and under [label]
    the verdict of that tally. *)
Theorem returned_dictionary_reports_fetched_detections
        (E : service) (mc : QArith_base.Q) (w : Z) (video_path : string)
        (st st' : state) (d : list (string * pyval)) :
  content_moderation E mc w video_path st = (Returns d, st') ->
  d = pred_values (classify (ModerationLabels (job_results E))) /\
  (forall key, In key (category_keys deployed) ->
     dict_get key d =
     Some (PyInt (hits deployed key (ModerationLabels (job_results E))))) /\
  dict_get "label" d =
    Some (PyStr (verdict (classify (ModerationLabels (job_results E))))).
Proof.
  unfold content_moderation. intros Hrun.
  apply bind_inv in Hrun. destruct Hrun as (_ & st1 & _ & Hrun).
  apply bind_inv in Hrun. destruct Hrun as (get_labels & st2 & Hdo & Hrun).
  apply bind_inv in Hrun. destruct Hrun as (_ & st3 & _ & Hrun).
  apply bind_inv in Hrun. destruct Hrun as (ds & st4 & Hget & Hrun).
  destruct get_labels as [r|]; [|discriminate Hget].
  apply job_response in Hdo. subst r.
  unfold getitem_ModerationLabels, ret in Hget, Hrun.
  injection Hget as <- _. injection Hrun as <- _.
  split; [reflexivity|]. split.
  - intros key Hin. unfold pred_values. rewrite dict_get_labelled_row.
    rewrite classify_refines_spec. unfold classify_spec.
    rewrite (dict_get_keyed
               (fun k => hits deployed k (ModerationLabels (job_results E))))
      by exact Hin.
    reflexivity.
  - reflexivity.
Qed.

Lemma returned_dictionary_reports_fetched_detections_witness :
  exists d st',
    content_moderation obliging default_min_confidence default_poll_wait_time
      "video.mp4" (entry [Message (succeeded "job-1")]) = (Returns d, st') /\
    dict_get "nudity" d = Some (PyInt 2) /\
    dict_get "label" d = Some (PyStr "rejected").
Proof.
  pose (run := content_moderation obliging default_min_confidence
                 default_poll_wait_time "video.mp4"
                 (entry [Message (succeeded "job-1")])).
  assert (Hrun : run = (Returns (pred_values (classify sample_detections)),
                        snd run))
    by (vm_compute; reflexivity).
  destruct (returned_dictionary_reports_fetched_detections _ _ _ _ _ _ _ Hrun)
    as (_ & Hcounts & Hlabel).
  exists (pred_values (classify sample_detections)), (snd run).
  split; [exact Hrun|]. split.
  - rewrite (Hcounts "nudity"); [reflexivity|cbn; tauto].
  - rewrite Hlabel. reflexivity.
Defined.
